(** * junos_pmtu: path MTU discovery by step-halving search over ping

    A shallow embedding of [plugins/modules/junos_pmtu.py]: the module's
    [main] (argument checks, baseline probe, search loop, result) and its
    probe executor [run_ping], followed by the properties of the search. *)

From Stdlib Require Import Ascii String ZArith Lia.
From stdpp Require Import base numbers option list strings pretty gmap.
From Equations Require Import Equations.

Local Open Scope string_scope.
Local Open Scope list_scope.
Local Open Scope Z_scope.

(** ** Python values and helpers *)

(** The values stored in the result dictionaries of the module. *)
Inductive Value :=
| VBool (b : bool)
| VInt (z : Z)
| VStr (s : string).

(** A Python [dict] with string keys. *)
Abbreviation Dict := (gmap string Value).

(** [v == z] for an integer [z] ([False == 0] and [True == 1] hold in
    Python, a string never equals an integer). *)
Definition py_eq_int (v : Value) (z : Z) : bool :=
  match v with
  | VInt a => a =? z
  | VBool b => (if b then 1 else 0) =? z
  | VStr _ => false
  end.

(** [str(n)] and the [{n}] of an f-string, for an integer. *)
Definition str (n : Z) : string := pretty n.

(** [s.split(sep)] for a one-character separator. *)
Fixpoint split (sep : ascii) (s : string) : list string :=
  match s with
  | EmptyString => [EmptyString]
  | String c rest =>
      if decide (c = sep) then EmptyString :: split sep rest
      else match split sep rest with
           | l :: ls => String c l :: ls
           | [] => [String c EmptyString]
           end
  end.

(** [line.startswith(p)]. *)
Definition startswith (line p : string) : bool := String.prefix p line.

(** Truth value of an optional string: [None] and the empty string are false. *)
Definition truthy (o : option string) : bool :=
  match o with
  | Some (String _ _) => true
  | _ => false
  end.

Definition newline : ascii := "010"%char.

(** ** Module parameters *)

(** [state] has the two choices [absent] and [present]. *)
Inductive State := absent | present.

(** [module.params], after [AnsibleModule] has typed the arguments and filled
    in the defaults. Field [param_x] is [params["x"]]. *)
Record Params := {
  param_count : Z;
  param_dest : string;
  param_df_bit : bool;
  param_rapid : bool;
  param_source : option string;
  param_interface : option string;
  param_ttl : option Z;
  param_size : option Z;
  param_interval : option Z;
  param_max_size : Z;
  param_max_range : Z;
  param_state : State
}.

(** The defaults of [argument_spec]; only [dest] is required. *)
Definition default_params (dest : string) : Params :=
  {| param_count := 5; param_dest := dest; param_df_bit := false;
     param_rapid := true; param_source := None; param_interface := None;
     param_ttl := None; param_size := None; param_interval := None;
     param_max_size := 1600; param_max_range := 512;
     param_state := present |}.

Definition INET_MIN_MTU_SIZE : Z := 68.
Definition INET_MAX_MTU_SIZE : Z := 65496.
Definition INET_HEADER_SIZE : Z := 20.
Definition ICMP_HEADER_SIZE : Z := 8.
Definition INET_AND_ICMP_HEADER_SIZE : Z := INET_HEADER_SIZE + ICMP_HEADER_SIZE.

(** [[0] + list(map(lambda x: 2**x, range(1, 17)))] *)
Definition MAX_SIZE_CHOICES : list Z := 0 :: map (λ x, 2 ^ x) (seqZ 1 16).

(** ** Collaborators *)

(** What the module takes from outside: the device session behind
    [get_connection(module)], whose state is [World], and the helpers that
    [junos_pmtu] imports from [junos_ping]. *)
Class Env := {
  World : Type;
  Command : Type;
  Rtt : Type;
  (** [build_ping(dest, count, size, interval, source, ttl, interface,
      df_bit, rapid)] *)
  build_ping :
    string → Z → string → option Z → option string → option Z →
    option string → bool → bool → Command;
  (** [conn.get(command)]: the text the device answers, and the session
      after. *)
  conn_get : World → Command → string * World;
  (** [parse_rtt(rtt_info)], with the [float] conversion of its values. *)
  parse_rtt : string → Rtt;
  (** What [parse_rate] extracts from a summary line
      ([pkt_loss], [rx], [tx], each read as an integer). *)
  parse_summary_line : string → Z * Z * Z;
  (** The received and transmitted counts reported without a summary
      line. *)
  rx_absent : Z;
  tx_absent : Z
}.

(** How a run of [main] ends. *)
Inductive Outcome :=
| ArgumentError
| fail_json (kwargs : Dict)
| exit_json (kwargs : Dict).

(** The keyword arguments handed to [fail_json] or [exit_json]. *)
Definition kwargs_of (o : Outcome) : Dict :=
  match o with
  | ArgumentError => ∅
  | fail_json kw | exit_json kw => kw
  end.

Definition inspect {A} (a : A) : {b | a = b} := exist _ a eq_refl.

Inductive Flow := Continue | Break.

Section Pmtu.

Context {E : Env}.

(** ** The probe executor *)

(** The result dictionary of [run_ping]; a key that may be missing is an
    option. *)
Record PingResults := {
  commands : Command;
  rtt : option Rtt;
  packet_loss : option Z;
  packets_rx : option Z;
  packets_tx : option Z
}.

(** One call of [run_ping] as [main] sees it: the [size] and [df_bit]
    arguments and the dictionary that came back. *)
Record Call := {
  call_size : string;
  call_df_bit : bool;
  call_results : PingResults
}.

(** Modelled from the spec: [parse_rate], imported from [junos_ping], is
    missing from the sources. On a summary line it yields the loss
    percentage and the received and transmitted counts; "if no loss line is
    found, loss defaults to 100". *)
Definition parse_rate (rate_info : option string) : Z * Z * Z :=
  match rate_info with
  | Some line => parse_summary_line line
  | None => (100, rx_absent, tx_absent)
  end.

(** The body of [for line in ping_results.split("\n")]. *)
Definition scan_line (count : Z) (acc : option string * option string)
    (line : string) : option string * option string :=
  let '(rtt_info, rate_info) := acc in
  let rtt_info :=
    if startswith line "round-trip" then Some line else rtt_info in
  let rate_info :=
    if startswith line (str count +:+ " packets transmitted")
    then Some line else rate_info in
  (rtt_info, rate_info).

(** [(rtt_info, rate_info)] after the loop over the lines. *)
Definition scan_lines (count : Z) (ping_results : string)
    : option string * option string :=
  foldl (scan_line count) (None, None) (split newline ping_results).

Definition run_ping (w : World) (params : Params) (size : string)
    (df_bit : bool) : PingResults * World :=
  let count := param_count params in
  let dest := param_dest params in
  let rapid := param_rapid params in
  let source := param_source params in
  let ttl := param_ttl params in
  let interval := param_interval params in
  let interface := param_interface params in
  let cmds :=
    build_ping dest count size interval source ttl interface df_bit rapid in
  let '(ping_results, w') := conn_get w cmds in
  let '(rtt_info, rate_info) := scan_lines count ping_results in
  let rtt :=
    if truthy rtt_info then parse_rtt <$> rtt_info else None in
  let '(pkt_loss, rx, tx) := parse_rate rate_info in
  ({| commands := cmds; rtt := rtt; packet_loss := Some pkt_loss;
      packets_rx := Some rx; packets_tx := Some tx |}, w').

(** ** The search controller *)

(** The call [run_ping(module, module.params, size, df_bit)] together with
    its record in the trace of calls. *)
Definition probe (w : World) (params : Params) (size : string)
    (df_bit : bool) : Call * World :=
  let '(r, w') := run_ping w params size df_bit in
  ({| call_size := size; call_df_bit := df_bit; call_results := r |}, w').

(** [results.get("packet_loss", 100)] *)
Definition loss_of (r : PingResults) : Z :=
  default 100 (packet_loss r).

(** The variables of [main] that the search loop reads and writes, the
    session, and the calls of [run_ping] made so far, oldest first. *)
Record SearchState := {
  st_test_size : Z;
  st_step : Z;
  st_results : Dict;
  st_world : World;
  st_trace : list Call
}.

(** One pass through the body of [while True]. *)
Definition loop_body (params : Params) (st : SearchState)
    : Flow * SearchState :=
  let max_size := param_max_size params in
  let test_size :=
    if st_test_size st <? INET_MIN_MTU_SIZE then INET_MIN_MTU_SIZE
    else if st_test_size st >? max_size then max_size
    else st_test_size st in
  let step := if st_step st >=? 2 then Z.div (st_step st) 2 else 0 in
  let size := str (test_size - INET_AND_ICMP_HEADER_SIZE) in
  let '(c, w) := probe (st_world st) params size true in
  let loss := loss_of (call_results c) in
  let trace := st_trace st ++ [c] in
  if (loss <? 100) && (test_size =? max_size) then
    (Break,
     {| st_test_size := test_size; st_step := step;
        st_results :=
          <["inet_mtu" := VInt test_size]>
            (<["failed" := VBool false]> (st_results st));
        st_world := w; st_trace := trace |})
  else
    let st' :=
      if loss <? 100 then
        {| st_test_size := test_size + step; st_step := step;
           st_results :=
             <["inet_mtu" := VInt test_size]>
               (<["failed" := VBool false]> (st_results st));
           st_world := w; st_trace := trace |}
      else
        {| st_test_size := test_size - step; st_step := step;
           st_results := st_results st; st_world := w; st_trace := trace |} in
    if step <? 1 then (Break, st') else (Continue, st').

(** The [while True] loop: the body is repeated until it breaks. Each pass
    that continues has halved a [step] of at least 2. *)
Equations? loop (params : Params) (st : SearchState) : SearchState
    by wf (Z.to_nat (st_step st)) lt :=
  loop params st with inspect (loop_body params st) := {
    | exist _ (Continue, st') Hbody => loop params st'
    | exist _ (Break, st') _ => st' }.
Proof.
  clear loop. revert Hbody. unfold loop_body.
  destruct (probe _ _ _ _) as [c w]. simpl.
  destruct (st_step st >=? 2) eqn:Hs.
  - assert (st_step st `div` 2 < st_step st) by (apply Z.div_lt; lia).
    repeat case_match; intros [= <-]; simpl; lia.
  - repeat case_match; intros [= <-]; try discriminate; simpl in *; lia.
Qed.

(** [f"The value of the max_size option({max_size}) must be between ..."] *)
Definition max_size_msg (max_size : Z) : string :=
  "The value of the max_size option(" +:+ str max_size +:+ ") " +:+
  "must be between " +:+ str INET_MIN_MTU_SIZE +:+ " and " +:+
  str INET_MAX_MTU_SIZE +:+ ".".

(** [f"Basic connectivity to {dest} failed."] *)
Definition connectivity_msg (dest : string) : string :=
  "Basic connectivity to " +:+ dest +:+ " failed.".

(** [f"The MTU of the path to {dest} is less than the minimum tested size ..."] *)
Definition path_mtu_msg (dest : string) (min_test_size max_size max_range : Z)
    : string :=
  "The MTU of the path to " +:+ dest +:+ " is less than " +:+
  "the minimum tested size(" +:+ str min_test_size +:+ "). Try " +:+
  "decreasing max_size(" +:+ str max_size +:+ ") or increasing " +:+
  "max_range(" +:+ str max_range +:+ ").".

(** [main]. The result is how the module ends, the calls of [run_ping] it
    made, oldest first, and the session it leaves. [AnsibleModule] enforces
    the [choices] of [max_range] when it is constructed; [fail_json] and
    [exit_json] end the run. *)
Definition main (params : Params) (w : World)
    : Outcome * list Call * World :=
  if negb (bool_decide (param_max_range params ∈ MAX_SIZE_CHOICES)) then
    (ArgumentError, [], w)
  else
  let dest := param_dest params in
  let max_size := param_max_size params in
  let max_range := param_max_range params in
  if (max_size <? INET_MIN_MTU_SIZE) || (max_size >? INET_MAX_MTU_SIZE) then
    (fail_json {[ "msg" := VStr (max_size_msg max_size) ]}, [], w)
  else
  let results : Dict :=
    <["dest" := VStr dest]>
      (<["inet_mtu" := VInt 0]>
         (<["failed" := VBool true]> {[ "changed" := VBool false ]})) in
  let size := str (INET_MIN_MTU_SIZE - INET_AND_ICMP_HEADER_SIZE) in
  let '(c, w) := probe w params size false in
  let reachability_results := call_results c in
  if loss_of reachability_results =? 100 then
    (exit_json (<["msg" := VStr (connectivity_msg dest)]> results), [c], w)
  else
  let test_size := max_size in
  let step := max_range in
  let min_test_size := test_size - (max_range - 1) in
  let min_test_size :=
    if min_test_size <? INET_MIN_MTU_SIZE then INET_MIN_MTU_SIZE
    else min_test_size in
  let st :=
    loop params
      {| st_test_size := test_size; st_step := step; st_results := results;
         st_world := w; st_trace := [c] |} in
  let results := st_results st in
  if py_eq_int (default (VInt 0) (results !! "inet_mtu")) 0 then
    (fail_json
       (<["msg" :=
            VStr (path_mtu_msg dest min_test_size max_size max_range)]>
          results),
     st_trace st, st_world st)
  else (exit_json results, st_trace st, st_world st).

End Pmtu.

(** The outcome, the calls of [run_ping] and the search calls (all but the
    baseline probe) of a run. *)
Definition outcome_of `{E : Env} (r : Outcome * list Call * World) : Outcome :=
  r.1.1.
Definition calls_of `{E : Env} (r : Outcome * list Call * World) : list Call :=
  r.1.2.
Definition search_calls `{E : Env} (r : Outcome * list Call * World)
    : list Call :=
  drop 1 (calls_of r).

(** [test_size] after the clamp at the head of the loop body, and [step]
    after its halving. *)
Definition clamped (max_size test_size : Z) : Z :=
  if test_size <? INET_MIN_MTU_SIZE then INET_MIN_MTU_SIZE
  else if test_size >? max_size then max_size
  else test_size.

Definition halved (step : Z) : Z :=
  if step >=? 2 then Z.div step 2 else 0.

(** The [results] of a successful probe at [test_size]. *)
Definition confirmed (results : Dict) (test_size : Z) : Dict :=
  <["inet_mtu" := VInt test_size]> (<["failed" := VBool false]> results).

(** [c] probes packet size [S]: its payload is [S] less the two headers. *)
Definition probed_at `{E : Env} (c : Call) (S : Z) : Prop :=
  call_size c = str (S - INET_AND_ICMP_HEADER_SIZE).

(** [c] reported a loss under 100, which the search takes as success. *)
Definition succeeded `{E : Env} (c : Call) : Prop :=
  loss_of (call_results c) < 100.

(** The outcomes of the calls [cs] agree with a path that carries exactly
    the packets of size at most [M]. *)
Definition monotone_in_size `{E : Env} (M : Z) (cs : list Call) : Prop :=
  Forall (λ c, ∃ t, probed_at c t ∧ (succeeded c ↔ t ≤ M)) cs.

(** [results] as [main] sets it up before the baseline probe. *)
Definition initial_results (dest : string) : Dict :=
  <["dest" := VStr dest]>
    (<["inet_mtu" := VInt 0]>
       (<["failed" := VBool true]> {[ "changed" := VBool false ]})).

(** The state in which [main] enters the loop, after the baseline call
    [c0] left the session [w]. *)
Definition initial_state `{E : Env} (params : Params) (c0 : Call) (w : World)
    : SearchState :=
  {| st_test_size := param_max_size params;
     st_step := param_max_range params;
     st_results := initial_results (param_dest params);
     st_world := w; st_trace := [c0] |}.

(** [min_test_size] as [main] computes it. *)
Definition min_test_size_of (params : Params) : Z :=
  let m := param_max_size params - (param_max_range params - 1) in
  if m <? INET_MIN_MTU_SIZE then INET_MIN_MTU_SIZE else m.

(** The end of [main], from the state the loop leaves. *)
Definition finish `{E : Env} (params : Params) (st : SearchState) : Outcome :=
  if py_eq_int (default (VInt 0) (st_results st !! "inet_mtu")) 0 then
    fail_json
      (<["msg" :=
           VStr (path_mtu_msg (param_dest params) (min_test_size_of params)
                   (param_max_size params) (param_max_range params))]>
         (st_results st))
  else exit_json (st_results st).

(** The search calls [sc] and the [results] they leave: no call succeeded
    and [results] is as it started, or [results] records the size of the
    last call that succeeded. *)
Definition last_success `{E : Env} (max_size : Z) (sc : list Call)
    (results0 results : Dict) : Prop :=
  (Forall (λ c, ¬ succeeded c) sc ∧ results = results0) ∨
  (∃ pre c post t,
     sc = pre ++ c :: post ∧ succeeded c ∧ probed_at c t ∧
     Forall (λ c', ¬ succeeded c') post ∧
     INET_MIN_MTU_SIZE ≤ t ≤ max_size ∧
     results = confirmed results0 t).

(** [c] is a call of the search loop for [max_size]: a probe at a size from
    68 to [max_size], with the DF bit set. *)
Definition search_probe `{E : Env} (max_size : Z) (c : Call) : Prop :=
  ∃ t, INET_MIN_MTU_SIZE ≤ t ≤ max_size ∧ probed_at c t ∧
       call_df_bit c = true.

(** The passes of the loop that a [step] allows. *)
Definition passes (step : Z) : Z :=
  if step <? 1 then 1 else Z.log2 step + 1.

(** A [step] that came from a valid [max_range] by halving: 0 or a power of
    two. *)
Definition pow2 (s : Z) : Prop := s = 0 ∨ ∃ j, 0 ≤ j ∧ s = 2 ^ j.

(** The state of the search at the head of the loop, on a path that carries
    exactly the sizes up to [M]. With [M'] the lesser of [M] and [max_size]
    and [c] the size about to be probed: no size can succeed; or the step is
    0 and the probe is at [max_size]; or nothing succeeded and [M'] lies
    under the sizes in reach; or [M'] is within reach, [step - 1] below or
    above [c]; or [M'] is already recorded and the sizes in reach lie above
    it. *)
Definition search_invariant `{E : Env} (M max_size : Z) (st : SearchState)
    : Prop :=
  let c := clamped max_size (st_test_size st) in
  let s := st_step st in
  let M' := Z.min M max_size in
  let none := Forall (λ c, ¬ succeeded c) (drop 1 (st_trace st)) in
  pow2 s ∧
  ((M < 68 ∧ none) ∨
   (s = 0 ∧ none ∧ st_test_size st = max_size) ∨
   (68 ≤ M' ∧ 1 ≤ s ∧ none ∧ M' ≤ c - s) ∨
   (68 ≤ M' ∧ 1 ≤ s ∧ c - s + 1 ≤ M' ≤ c + s - 1) ∨
   (68 ≤ M' ∧ 1 ≤ s ∧
    st_results st !! "inet_mtu" = Some (VInt M') ∧ M' = c - s)).

(** The text that [run_ping] gets back from the device. *)
Definition transport_output `{E : Env} (w : World) (params : Params)
    (size : string) (df_bit : bool) : string :=
  (conn_get w
     (build_ping (param_dest params) (param_count params) size
        (param_interval params) (param_source params) (param_ttl params)
        (param_interface params) df_bit (param_rapid params))).1.

(** Every call of [sc] that succeeded, at a size [S], and that no probe at
    [max_size] follows, has [S] at most [bound]. *)
Definition kept_above `{E : Env} (max_size : Z) (sc : list Call) (bound : Z)
    : Prop :=
  ∀ pre c post S,
    sc = pre ++ c :: post → succeeded c → probed_at c S →
    Forall (λ c', ¬ probed_at c' max_size) post →
    S ≤ bound.

(** [params] passes the checks that precede the first probe. *)
Definition valid_params (params : Params) : Prop :=
  param_max_range params ∈ MAX_SIZE_CHOICES ∧
  INET_MIN_MTU_SIZE ≤ param_max_size params ≤ INET_MAX_MTU_SIZE.

(** [params] with other values for the options that the module declares but
    does not read. *)
Definition with_unused (params : Params) (df_bit : bool) (size : option Z)
    (state : State) : Params :=
  {| param_count := param_count params; param_dest := param_dest params;
     param_df_bit := df_bit; param_rapid := param_rapid params;
     param_source := param_source params;
     param_interface := param_interface params;
     param_ttl := param_ttl params; param_size := size;
     param_interval := param_interval params;
     param_max_size := param_max_size params;
     param_max_range := param_max_range params; param_state := state |}.

(** The two configuration failures: [AnsibleModule] refusing the arguments,
    and the [fail_json] of the [max_size] check. *)
Definition is_configuration_error (o : Outcome) : Prop :=
  o = ArgumentError ∨
  ∃ max_size, o = fail_json {[ "msg" := VStr (max_size_msg max_size) ]}.

(** ** A scripted device

    A session that answers the commands it is sent from a list of prepared
    texts, in order, and a reader for the two summary lines those texts
    use. It stands in for a device in the examples. *)

Definition summary_line (tx rx loss : Z) : string :=
  str tx +:+ " packets transmitted, " +:+ str rx +:+
  " packets received, " +:+ str loss +:+ "% packet loss".

Definition text_of_lines (ls : list string) : string :=
  match ls with
  | [] => EmptyString
  | l :: ls => foldl (λ acc l', acc +:+ String newline l') l ls
  end.

Definition reply_ok : string :=
  text_of_lines
    ["--- 192.68.1.1 ping statistics ---"; summary_line 5 5 0;
     "round-trip min/avg/max/stddev = 0.5/0.6/0.7/0.1 ms"].

Definition reply_lost : string :=
  text_of_lines
    ["--- 192.68.1.1 ping statistics ---"; summary_line 5 0 100].

Definition reply_garbled : string :=
  text_of_lines ["ping: sendto: Message too long"; EmptyString].

Definition scripted : Env := {|
  World := list string;
  Command := string * bool;
  Rtt := string;
  build_ping := λ dest count size interval source ttl interface df_bit rapid,
    (size, df_bit);
  conn_get := λ w _,
    match w with
    | t :: w' => (t, w')
    | [] => (EmptyString, [])
    end;
  parse_rtt := λ line, line;
  parse_summary_line := λ line,
    if decide (line = summary_line 5 5 0) then (0, 5, 5)
    else if decide (line = summary_line 5 0 100) then (100, 0, 5)
    else (100, 0, 0);
  rx_absent := 0;
  tx_absent := 0
|}.

(** The parameters of the examples: the defaults, and the defaults with
    [max_size] 200, from source 192.168.1.2. *)
Definition params_default : Params := default_params "192.68.1.1".

Definition params_200 : Params :=
  {| param_count := 5; param_dest := "192.68.1.1"; param_df_bit := false;
     param_rapid := true; param_source := Some "192.168.1.2";
     param_interface := None; param_ttl := None; param_size := None;
     param_interval := None; param_max_size := 200; param_max_range := 512;
     param_state := present |}.

(** The defaults with [max_range] 300, which is not among the choices. *)
Definition params_range_300 : Params :=
  {| param_count := 5; param_dest := "192.68.1.1"; param_df_bit := false;
     param_rapid := true; param_source := None; param_interface := None;
     param_ttl := None; param_size := None; param_interval := None;
     param_max_size := 1600; param_max_range := 300;
     param_state := present |}.

(** The defaults with [max_range] 0, the choice that searches no range. *)
Definition params_range_0 : Params :=
  {| param_count := 5; param_dest := "192.68.1.1"; param_df_bit := false;
     param_rapid := true; param_source := None; param_interface := None;
     param_ttl := None; param_size := None; param_interval := None;
     param_max_size := 1600; param_max_range := 0;
     param_state := present |}.

(** Scripts: the baseline answer first, then the answers of the search. *)
Definition script_overwrite : list string :=
  [reply_ok; reply_lost; reply_ok; reply_ok; reply_lost; reply_ok;
   reply_lost; reply_lost; reply_lost; reply_lost; reply_lost].

Definition script_mtu_196 : list string :=
  [reply_ok; reply_lost; reply_ok; reply_ok; reply_lost; reply_ok;
   reply_ok; reply_ok; reply_ok; reply_lost; reply_lost].

Definition script_two_confirmed : list string :=
  [reply_ok; reply_lost; reply_ok; reply_lost; reply_ok; reply_lost;
   reply_lost; reply_lost; reply_lost; reply_lost; reply_lost].

Definition script_all_lost : list string :=
  [reply_ok; reply_lost; reply_lost; reply_lost; reply_lost; reply_lost;
   reply_lost; reply_lost; reply_lost; reply_lost; reply_lost].

(** * Properties *)

Section Properties.

Context {E : Env}.

Implicit Types (params : Params) (st : SearchState) (c : Call) (w : World).

(** Comparisons that evaluated to a boolean, as facts for [lia]. *)
Ltac bool_facts :=
  repeat match goal with
  | H : (_ || _) = true |- _ => apply orb_true_iff in H
  | H : (_ || _) = false |- _ => apply orb_false_iff in H as [? ?]
  | H : (_ && _) = true |- _ => apply andb_true_iff in H as [? ?]
  | H : (_ && _) = false |- _ => apply andb_false_iff in H
  | H : (_ <? _) = true |- _ => apply Z.ltb_lt in H
  | H : (_ <? _) = false |- _ => apply Z.ltb_ge in H
  | H : (_ >? _) = true |- _ => rewrite Z.gtb_ltb in H
  | H : (_ >? _) = false |- _ => rewrite Z.gtb_ltb in H
  | H : (_ >=? _) = true |- _ => rewrite Z.geb_leb in H
  | H : (_ >=? _) = false |- _ => rewrite Z.geb_leb in H
  | H : (_ <=? _) = true |- _ => apply Z.leb_le in H
  | H : (_ <=? _) = false |- _ => apply Z.leb_gt in H
  | H : (_ =? _) = true |- _ => apply Z.eqb_eq in H
  | H : (_ =? _) = false |- _ => apply Z.eqb_neq in H
  end.

(** ** Reasoning about the loop *)

Lemma loop_eq params st :
  loop params st =
  match loop_body params st with
  | (Continue, st') => loop params st'
  | (Break, st') => st'
  end.
Proof.
  funelim (loop params st);
    match goal with H : loop_body _ _ = _ |- _ => rewrite H end;
    reflexivity.
Qed.

Lemma probe_call w params size df_bit c w' :
  probe w params size df_bit = (c, w') →
  call_size c = size ∧ call_df_bit c = df_bit.
Proof.
  unfold probe. destruct (run_ping _ _ _ _). intros [= <- _]. done.
Qed.

(** What one pass of the loop body does, case by case. *)
Lemma loop_body_spec params st flow st' :
  loop_body params st = (flow, st') →
  let max_size := param_max_size params in
  let t := clamped max_size (st_test_size st) in
  let h := halved (st_step st) in
  ∃ c,
    st_trace st' = st_trace st ++ [c] ∧
    probed_at c t ∧ call_df_bit c = true ∧
    st_step st' = h ∧
    ((succeeded c ∧ st_results st' = confirmed (st_results st) t ∧
      ((t = max_size ∧ flow = Break ∧ st_test_size st' = t) ∨
       (t ≠ max_size ∧ st_test_size st' = t + h ∧
        flow = if h <? 1 then Break else Continue))) ∨
     (¬ succeeded c ∧ st_results st' = st_results st ∧
      st_test_size st' = t - h ∧
      flow = if h <? 1 then Break else Continue)).
Proof.
  unfold loop_body. fold (clamped (param_max_size params) (st_test_size st)).
  fold (halved (st_step st)).
  destruct (probe _ _ _ _) as [c w] eqn:Hp.
  apply probe_call in Hp as [Hsize Hdf]. cbv zeta.
  intros Hbody. exists c. unfold succeeded, probed_at.
  destruct (loss_of (call_results c) <? 100) eqn:Hloss;
    [apply Z.ltb_lt in Hloss | apply Z.ltb_ge in Hloss].
  - destruct (_ =? _) eqn:Heq; [apply Z.eqb_eq in Heq | apply Z.eqb_neq in Heq];
      simpl in Hbody.
    + injection Hbody as <- <-. simpl. split_and!; try done.
      left. split_and!; try done. by left.
    + destruct (halved (st_step st) <? 1) eqn:Hh;
        injection Hbody as <- <-; simpl; split_and!; try done;
        left; split_and!; try done; right; rewrite ?Hh; done.
  - simpl in Hbody.
    destruct (halved (st_step st) <? 1) eqn:Hh;
      injection Hbody as <- <-; simpl; split_and!; try done;
      right; split_and!; try done; lia.
Qed.

Lemma halved_lt s : 1 ≤ halved s → halved s < s.
Proof.
  unfold halved. destruct (s >=? 2) eqn:Hs; [|lia].
  intros _. apply Z.div_lt; lia.
Qed.

Lemma loop_body_continue params st st' :
  loop_body params st = (Continue, st') →
  1 ≤ st_step st' < st_step st.
Proof.
  intros Hb. apply loop_body_spec in Hb as (c & _ & _ & _ & Hstep & Hcase).
  cbv zeta in *. rewrite Hstep.
  assert (1 ≤ halved (st_step st)) as Hh.
  { destruct (halved (st_step st) <? 1) eqn:Hlt; [|lia].
    destruct Hcase as [(_ & _ & [(_ & ? & _)|(_ & _ & ?)])|(_ & _ & _ & ?)];
      discriminate. }
  split; [done | by apply halved_lt].
Qed.

(** An invariant kept by the passes that continue, and turned into [Q] by
    the pass that breaks, gives [Q] after the loop. *)
Lemma loop_rule params (I Q : SearchState → Prop) :
  (∀ st st', I st → loop_body params st = (Continue, st') → I st') →
  (∀ st st', I st → loop_body params st = (Break, st') → Q st') →
  ∀ st, I st → Q (loop params st).
Proof.
  intros Hcont Hbreak st.
  remember (Z.to_nat (st_step st)) as n eqn:Hn. revert st Hn.
  induction n as [n IH] using lt_wf_ind. intros st -> HI.
  rewrite loop_eq. destruct (loop_body params st) as [[] st'] eqn:Hb.
  - eapply IH; [|reflexivity|by eapply Hcont].
    apply loop_body_continue in Hb. lia.
  - by eapply Hbreak.
Qed.

(** ** The shape of a run *)

Lemma main_run params w :
  (¬ valid_params params ∧ is_configuration_error (outcome_of (main params w)) ∧
   calls_of (main params w) = [] ∧ (main params w).2 = w) ∨
  (valid_params params ∧
   ∃ c0 w1,
     probe w params (str 40) false = (c0, w1) ∧
     ((loss_of (call_results c0) = 100 ∧
       main params w =
       (exit_json
          (<["msg" := VStr (connectivity_msg (param_dest params))]>
             (initial_results (param_dest params))),
        [c0], w1)) ∨
      (loss_of (call_results c0) ≠ 100 ∧
       main params w =
       let st := loop params (initial_state params c0 w1) in
       (finish params st, st_trace st, st_world st)))).
Proof.
  unfold main, valid_params, is_configuration_error.
  destruct (bool_decide _) eqn:Hrange; cbn [negb];
    [apply bool_decide_eq_true in Hrange
    |apply bool_decide_eq_false in Hrange].
  2: { left. split_and!; try done; [tauto | by left]. }
  destruct (_ || _) eqn:Hsize; bool_facts.
  { left. split_and!; try done; [|right; by eexists].
    intros [_ ?]. destruct Hsize; bool_facts; lia. }
  right. split; [split; [done | lia]|].
  change (str (INET_MIN_MTU_SIZE - INET_AND_ICMP_HEADER_SIZE)) with (str 40).
  destruct (probe w params (str 40) false) as [c0 w1].
  exists c0, w1. split; [done|].
  destruct (loss_of (call_results c0) =? 100) eqn:Hloss; bool_facts.
  - left. done.
  - right. split; [done|]. cbv zeta.
    unfold finish, initial_state, min_test_size_of, initial_results.
    by destruct (py_eq_int _ _).
Qed.

Lemma confirmed_confirmed (d : Dict) t1 t2 :
  confirmed (confirmed d t1) t2 = confirmed d t2.
Proof.
  unfold confirmed. apply map_eq. intros k.
  rewrite !lookup_insert. by repeat case_decide.
Qed.

Lemma clamped_range max_size t :
  INET_MIN_MTU_SIZE ≤ max_size →
  INET_MIN_MTU_SIZE ≤ clamped max_size t ≤ max_size.
Proof. unfold clamped. repeat case_match; lia. Qed.

Lemma drop1_snoc {A} (l : list A) x :
  l ≠ [] → drop 1 (l ++ [x]) = drop 1 l ++ [x].
Proof. by destruct l. Qed.

(** Every pass keeps [results] in step with the last successful call. *)
Lemma loop_body_last_success params results0 flow st st' :
  INET_MIN_MTU_SIZE ≤ param_max_size params →
  loop_body params st = (flow, st') →
  st_trace st ≠ [] ∧
  last_success (param_max_size params) (drop 1 (st_trace st)) results0
    (st_results st) →
  st_trace st' ≠ [] ∧
  last_success (param_max_size params) (drop 1 (st_trace st')) results0
    (st_results st').
Proof.
  intros Hmax Hb [Hne Hlast].
  apply loop_body_spec in Hb as (c & Htr & Hat & _ & _ & Hcase).
  cbv zeta in *. rewrite Htr, drop1_snoc by done.
  split; [by destruct (st_trace st)|].
  pose proof (clamped_range (param_max_size params) (st_test_size st) Hmax).
  destruct Hcase as [(Hok & Hres & _)|(Hko & Hres & _)]; rewrite Hres.
  - right.
    exists (drop 1 (st_trace st)), c, [],
      (clamped (param_max_size params) (st_test_size st)).
    split_and!; try done; try lia.
    destruct Hlast as [[_ ->]|(? & ? & ? & ? & _ & _ & _ & _ & _ & ->)];
      [done | apply confirmed_confirmed].
  - destruct Hlast as [[Hall ->]|(pre & c1 & post & t & -> & ? & ? & ? & ? & ->)].
    + left. split; [|done]. apply Forall_app. split; [done|]. by constructor.
    + right. exists pre, c1, (post ++ [c]), t.
      rewrite <- app_assoc. split_and!; try done; try lia.
      apply Forall_app. split; [done|]. by constructor.
Qed.

Lemma loop_last_success params c0 w1 :
  INET_MIN_MTU_SIZE ≤ param_max_size params →
  let st := loop params (initial_state params c0 w1) in
  ∃ sc, st_trace st = c0 :: sc ∧
    last_success (param_max_size params) sc
      (initial_results (param_dest params)) (st_results st).
Proof.
  intros Hmax st.
  pose (I := λ st : SearchState,
    (∃ sc, st_trace st = c0 :: sc) ∧ st_trace st ≠ [] ∧
    last_success (param_max_size params) (drop 1 (st_trace st))
      (initial_results (param_dest params)) (st_results st)).
  assert (∀ flow st1 st2,
    I st1 → loop_body params st1 = (flow, st2) → I st2) as Hstep.
  { intros flow st1 st2 ([sc Hsc] & HI) Hb. split.
    - apply loop_body_spec in Hb as (c & Htr & _). rewrite Htr, Hsc.
      by eexists.
    - by eapply loop_body_last_success. }
  assert (I st) as ([sc Hsc] & _ & Hlast).
  { apply (loop_rule params I I); [apply Hstep..|].
    split_and!; [by exists [] | done |]. left. split; [constructor | done]. }
  exists sc. split; [done|]. by rewrite Hsc in Hlast.
Qed.

(** Lookups in the dictionaries the module builds. *)
Ltac dict_lookup :=
  unfold confirmed, initial_results;
  rewrite ?lookup_insert, ?lookup_singleton, ?lookup_empty;
  repeat case_decide; try done.

Lemma finish_kwargs params st sc :
  last_success (param_max_size params) sc
    (initial_results (param_dest params)) (st_results st) →
  (Forall (λ c, ¬ succeeded c) sc ∧
   st_results st = initial_results (param_dest params) ∧
   finish params st =
   fail_json
     (<["msg" :=
          VStr (path_mtu_msg (param_dest params) (min_test_size_of params)
                  (param_max_size params) (param_max_range params))]>
        (initial_results (param_dest params)))) ∨
  (∃ pre c post t,
     sc = pre ++ c :: post ∧ succeeded c ∧ probed_at c t ∧
     Forall (λ c', ¬ succeeded c') post ∧
     INET_MIN_MTU_SIZE ≤ t ≤ param_max_size params ∧
     finish params st =
     exit_json (confirmed (initial_results (param_dest params)) t)).
Proof.
  intros [[Hall Hres]|(pre & c & post & t & ? & ? & ? & ? & Ht & Hres)];
    unfold finish; rewrite Hres.
  - left. split_and!; try done.
  - right. exists pre, c, post, t. split_and!; try done; try lia.
    replace (confirmed _ t !! "inet_mtu") with (Some (VInt t))
      by (symmetry; dict_lookup).
    simpl. destruct (t =? 0) eqn:Ht0; bool_facts; [|done].
    unfold INET_MIN_MTU_SIZE in *. lia.
Qed.

(** A run with valid parameters: the baseline call, then either the early
    exit or the search and its end. *)
Lemma valid_run params w :
  valid_params params →
  ∃ c0 w1,
    probe w params (str 40) false = (c0, w1) ∧
    ((loss_of (call_results c0) = 100 ∧
      main params w =
      (exit_json
         (<["msg" := VStr (connectivity_msg (param_dest params))]>
            (initial_results (param_dest params))),
       [c0], w1)) ∨
     (loss_of (call_results c0) ≠ 100 ∧
      ∃ st sc,
        st = loop params (initial_state params c0 w1) ∧
        st_trace st = c0 :: sc ∧
        last_success (param_max_size params) sc
          (initial_results (param_dest params)) (st_results st) ∧
        main params w = (finish params st, c0 :: sc, st_world st))).
Proof.
  intros Hvalid.
  destruct (main_run params w) as [[? _]|(_ & c0 & w1 & Hp & Hrun)]; [done|].
  exists c0, w1. split; [done|].
  destruct Hrun as [?|[Hloss Hmain]]; [by left | right].
  split; [done|].
  destruct (loop_last_success params c0 w1) as (sc & Htr & Hlast);
    [apply Hvalid|].
  eexists _, sc. split_and!; try done.
  rewrite Hmain. cbv zeta. by rewrite Htr.
Qed.

(** The calls after the baseline are probes of the search. *)
Lemma loop_search_calls params c0 w1 :
  INET_MIN_MTU_SIZE ≤ param_max_size params →
  ∃ sc, st_trace (loop params (initial_state params c0 w1)) = c0 :: sc ∧
        Forall (search_probe (param_max_size params)) sc.
Proof.
  intros Hmax.
  pose (I := λ st : SearchState,
    ∃ sc, st_trace st = c0 :: sc ∧
          Forall (search_probe (param_max_size params)) sc).
  assert (∀ flow st1 st2,
    I st1 → loop_body params st1 = (flow, st2) → I st2) as Hstep.
  { intros flow st1 st2 (sc & Hsc & Hall) Hb.
    apply loop_body_spec in Hb as (c & Htr & Hat & Hdf & _).
    exists (sc ++ [c]). rewrite Htr, Hsc. split; [done|].
    apply Forall_app. split; [done|]. constructor; [|done].
    eexists. split_and!; [apply clamped_range..| |]; done. }
  apply (loop_rule params I I); [apply Hstep..|].
  exists []. by split.
Qed.

Lemma passes_pos s : 1 ≤ passes s.
Proof.
  unfold passes. destruct (s <? 1); [lia|].
  pose proof (Z.log2_nonneg s). lia.
Qed.

Lemma passes_halved s : 1 ≤ halved s → passes (halved s) + 1 ≤ passes s.
Proof.
  unfold halved, passes. destruct (s >=? 2) eqn:Hs; bool_facts; [|lia].
  intros Hh. destruct (s `div` 2 <? 1) eqn:H1; bool_facts; [lia|].
  destruct (s <? 1) eqn:H2; bool_facts; [lia|].
  assert (2 * (s `div` 2) ≤ s) by (apply Z.mul_div_le; lia).
  assert (Z.log2 (2 * (s `div` 2)) ≤ Z.log2 s) by (by apply Z.log2_le_mono).
  rewrite Z.log2_double in * by lia. lia.
Qed.

(** The loop adds at most [passes step] calls to the trace. *)
Lemma loop_calls_bound params st :
  Z.of_nat (length (st_trace (loop params st))) ≤
  Z.of_nat (length (st_trace st)) + passes (st_step st).
Proof.
  set (N := Z.of_nat (length (st_trace st)) + passes (st_step st)).
  apply (loop_rule params
    (λ st1, Z.of_nat (length (st_trace st1)) + passes (st_step st1) ≤ N)
    (λ st1, Z.of_nat (length (st_trace st1)) ≤ N)); [| |done].
  - intros st1 st2 HI Hb.
    pose proof (loop_body_continue _ _ _ Hb) as Hstep.
    apply loop_body_spec in Hb as (c & Htr & _ & _ & Hh & _).
    cbv zeta in *. rewrite Htr, length_app, Hh. simpl.
    rewrite Hh in Hstep.
    pose proof (passes_halved (st_step st1)). lia.
  - intros st1 st2 HI Hb.
    apply loop_body_spec in Hb as (c & Htr & _).
    rewrite Htr, length_app. simpl.
    pose proof (passes_pos (st_step st1)). lia.
Qed.

(** The loop depends on the parameters only through its body. *)
Lemma loop_ext params params' :
  (∀ st, loop_body params st = loop_body params' st) →
  ∀ st, loop params st = loop params' st.
Proof.
  intros Hbody st.
  remember (Z.to_nat (st_step st)) as n eqn:Hn. revert st Hn.
  induction n as [n IH] using lt_wf_ind. intros st ->.
  rewrite (loop_eq params), (loop_eq params'), <- Hbody.
  destruct (loop_body params st) as [[] st'] eqn:Hb; [|done].
  eapply IH; [|reflexivity]. apply loop_body_continue in Hb. lia.
Qed.

(** Lines that do not start a loss summary leave [rate_info] as it was. *)
Lemma scan_no_summary count lines acc :
  Forall (λ line,
    startswith line (str count +:+ " packets transmitted") = false) lines →
  (foldl (scan_line count) acc lines).2 = acc.2.
Proof.
  intros Hall. revert acc.
  induction Hall as [|line lines Hline _ IH]; intros [rtt_info rate_info];
    [done|].
  simpl. rewrite IH. unfold scan_line. by rewrite Hline.
Qed.

Lemma search_calls_are_probes params w :
  Forall (search_probe (param_max_size params)) (search_calls (main params w)).
Proof.
  destruct (main_run params w) as [(_ & _ & Hnone & _)|[[_ Hsize] Hrun]].
  { unfold search_calls. rewrite Hnone. constructor. }
  destruct Hrun as (c0 & w1 & _ & [[_ ->]|[_ ->]]);
    unfold search_calls, calls_of; simpl; [constructor|].
  destruct (loop_search_calls params c0 w1) as (sc & -> & Hall);
    [apply Hsize | done].
Qed.

(** ** The search on a path with a threshold *)

Lemma probed_at_inj c S T : probed_at c S → probed_at c T → S = T.
Proof.
  unfold probed_at, str. intros -> Heq. apply (inj pretty) in Heq. lia.
Qed.

Lemma clamped_cases max_size t :
  INET_MIN_MTU_SIZE ≤ max_size →
  (t < 68 ∧ clamped max_size t = 68) ∨
  (max_size < t ∧ clamped max_size t = max_size) ∨
  (68 ≤ t ≤ max_size ∧ clamped max_size t = t).
Proof.
  unfold clamped, INET_MIN_MTU_SIZE.
  intros ?. repeat case_match; bool_facts; lia.
Qed.

Lemma halved_pow2 s :
  pow2 s →
  pow2 (halved s) ∧ (2 ≤ s → s = 2 * halved s) ∧ (s < 2 → halved s = 0).
Proof.
  unfold halved. intros [->|(j & Hj & ->)]; [by repeat split; [left|..]|].
  destruct (2 ^ j >=? 2) eqn:Hge; bool_facts.
  - assert (j ≠ 0) by (intros ->; simpl in Hge; lia).
    assert (2 ^ j = 2 * 2 ^ (j - 1)) as Hpow.
    { rewrite <- Z.pow_succ_r by lia. f_equal. lia. }
    assert (2 ^ j `div` 2 = 2 ^ (j - 1)) as Hdiv.
    { rewrite Hpow, Z.mul_comm. apply Z.div_mul. lia. }
    rewrite Hdiv. split_and!; [right; exists (j - 1); split; [lia | done] | lia | lia].
  - split_and!; [by left | lia | done].
Qed.

Lemma choices_pow2_inv x : x ∈ MAX_SIZE_CHOICES → pow2 x.
Proof.
  unfold MAX_SIZE_CHOICES. intros [->|Hin]%elem_of_cons; [by left|].
  apply list_elem_of_fmap in Hin as (j & -> & Hj%elem_of_seqZ).
  right. exists j. split; [lia | done].
Qed.

Lemma confirmed_inet_mtu (d : Dict) t :
  confirmed d t !! "inet_mtu" = Some (VInt t).
Proof. dict_lookup. Qed.

(** One pass of the loop keeps the search invariant, and the pass that
    breaks leaves the threshold recorded unless every probe failed. *)
Lemma loop_body_monotone params M flow st st' :
  INET_MIN_MTU_SIZE ≤ param_max_size params →
  loop_body params st = (flow, st') →
  st_trace st ≠ [] →
  monotone_in_size M (drop 1 (st_trace st')) →
  search_invariant M (param_max_size params) st →
  match flow with
  | Continue => search_invariant M (param_max_size params) st'
  | Break =>
      Forall (λ c, ¬ succeeded c) (drop 1 (st_trace st')) ∨
      st_results st' !! "inet_mtu" =
      Some (VInt (Z.min M (param_max_size params)))
  end.
Proof.
  intros Hmax Hb Hne Hmono [Hpow Hinv].
  apply loop_body_spec in Hb as (c & Htr & Hat & _ & Hstep & Hcase).
  cbv zeta in *. unfold search_invariant. cbv zeta.
  rewrite Htr, drop1_snoc in * by done.
  apply Forall_app in Hmono as [_ Hc].
  apply Forall_cons in Hc as [(t & Hat' & Hiff) _].
  rewrite (probed_at_inj _ _ _ Hat' Hat) in Hiff. clear t Hat'.
  pose proof (clamped_range _ (st_test_size st) Hmax) as Hcl.
  pose proof (clamped_cases _ (st_test_size st) Hmax) as Hcl0.
  pose proof (clamped_cases _ (st_test_size st') Hmax) as Hcl'.
  destruct (halved_pow2 _ Hpow) as (Hpow' & Heven & Hsmall).
  unfold INET_MIN_MTU_SIZE in *. rewrite Hstep.
  set (cl := clamped (param_max_size params) (st_test_size st)) in *.
  set (cl' := clamped (param_max_size params) (st_test_size st')) in *.
  set (h := halved (st_step st)) in *.
  set (none := Forall (λ c, ¬ succeeded c) (drop 1 (st_trace st))) in *.
  assert (¬ succeeded c → none →
          Forall (λ c, ¬ succeeded c) (drop 1 (st_trace st) ++ [c]))
    as Hnone'.
  { intros ? ?. apply Forall_app. split; [done|]. by constructor. }
  destruct Hcase as [(Hsucc & Hres & Hpos)|(Hfail & Hres & Htest & Hflow)].
  - (* the probe succeeded *)
    assert (cl ≤ M) as HM by tauto.
    assert (st_results st' !! "inet_mtu" = Some (VInt cl)) as Hmtu
      by (rewrite Hres; apply confirmed_inet_mtu).
    destruct Hpos as [(Heq & -> & _)|(Hneq & Htest & ->)].
    + right. rewrite Hmtu. do 2 f_equal. lia.
    + rewrite Htest in Hcl'.
      destruct (h <? 1) eqn:Hh; bool_facts.
      * right. rewrite Hmtu. do 2 f_equal.
        destruct Hinv as [?|[?|[?|[?|?]]]]; lia.
      * split; [done|].
        destruct (decide (cl = Z.min M (param_max_size params))) as [Heq|].
        -- destruct Hinv as [?|[?|[?|[?|?]]]]; try lia.
           destruct Hcl' as [?|[?|?]];
             [lia | do 3 right; left; lia | do 4 right].
           rewrite Hmtu, Heq. split_and!; try done; lia.
        -- do 3 right. left.
           destruct Hinv as [?|[?|[?|[?|?]]]]; lia.
  - (* the probe failed *)
    assert (M < cl) as HM by (destruct (decide (cl ≤ M)); [tauto | lia]).
    rewrite Hres, Htest in *. subst flow.
    destruct (h <? 1) eqn:Hh; bool_facts.
    + destruct Hinv as [?|[?|[?|[?|?]]]]; try (left; apply Hnone'; tauto);
        [lia | right; tauto].
    + split; [done|].
      destruct Hinv as [?|[?|[?|[?|?]]]].
      * left. split; [lia | apply Hnone'; tauto].
      * lia.
      * do 2 right. left. split_and!; try lia. apply Hnone'; tauto.
      * do 3 right. left. lia.
      * do 4 right. split_and!; try tauto; lia.
Qed.

Lemma initial_search_invariant params c0 w1 M :
  valid_params params →
  search_invariant M (param_max_size params) (initial_state params c0 w1).
Proof.
  intros [Hrange [Hmax _]]. unfold search_invariant. simpl.
  pose proof (choices_pow2_inv _ Hrange) as Hpow.
  split; [done|].
  pose proof (clamped_cases _ (param_max_size params) Hmax) as Hcl.
  unfold INET_MIN_MTU_SIZE in *.
  set (cl := clamped (param_max_size params) (param_max_size params)) in *.
  assert (Forall (λ c : Call, ¬ succeeded c) []) as Hnil by constructor.
  destruct (decide (M < 68)); [by left|].
  destruct (decide (param_max_range params = 0)); [right; by left|].
  assert (1 ≤ param_max_range params).
  { destruct Hpow as [?|(j & Hj & ->)]; [done|].
    apply Z.pow_le_mono_r with (a := 2) (b := 0) (c := j); lia. }
  destruct (decide (Z.min M (param_max_size params) ≤
                    cl - param_max_range params)).
  - do 2 right. left. split_and!; try done; lia.
  - do 3 right. left. lia.
Qed.

(** On a path with a threshold the search ends with the threshold, capped
    at [max_size], as its answer, unless no probe succeeded. *)
Lemma loop_monotone params c0 w1 M :
  valid_params params →
  let st := loop params (initial_state params c0 w1) in
  monotone_in_size M (drop 1 (st_trace st)) →
  Forall (λ c, ¬ succeeded c) (drop 1 (st_trace st)) ∨
  st_results st !! "inet_mtu" = Some (VInt (Z.min M (param_max_size params))).
Proof.
  intros Hvalid.
  assert (INET_MIN_MTU_SIZE ≤ param_max_size params) as Hmax
    by apply Hvalid.
  assert (∀ st st' c, st_trace st ≠ [] → st_trace st' = st_trace st ++ [c] →
    monotone_in_size M (drop 1 (st_trace st')) →
    monotone_in_size M (drop 1 (st_trace st))) as Hprefix.
  { intros st st' c Hne Htr. rewrite Htr, drop1_snoc by done.
    by intros [? _]%Forall_app. }
  cbv zeta.
  apply (loop_rule params
    (λ st, st_trace st ≠ [] ∧
           (monotone_in_size M (drop 1 (st_trace st)) →
            search_invariant M (param_max_size params) st))
    (λ st, monotone_in_size M (drop 1 (st_trace st)) →
           Forall (λ c, ¬ succeeded c) (drop 1 (st_trace st)) ∨
           st_results st !! "inet_mtu" =
           Some (VInt (Z.min M (param_max_size params))))).
  - intros st st' [Hne HI] Hb.
    pose proof Hb as (c & Htr & _)%loop_body_spec.
    split; [rewrite Htr; by destruct (st_trace st)|].
    intros Hmono.
    apply (loop_body_monotone params M Continue st st'); eauto.
  - intros st st' [Hne HI] Hb Hmono.
    pose proof Hb as (c & Htr & _)%loop_body_spec.
    apply (loop_body_monotone params M Break st st'); eauto.
  - split; [done|]. intros _. by apply initial_search_invariant.
Qed.

Lemma last_success_unique (pre pre' post post' : list Call) c c' :
  pre ++ c :: post = pre' ++ c' :: post' →
  succeeded c → succeeded c' →
  Forall (λ x, ¬ succeeded x) post → Forall (λ x, ¬ succeeded x) post' →
  c = c'.
Proof.
  revert pre'. induction pre as [|x pre IH]; intros [|x' pre'] Heq Hc Hc' Hp Hp';
    simpl in Heq; injection Heq as -> Heq.
  - done.
  - rewrite Heq in Hp. apply Forall_app in Hp as [_ Hp].
    apply Forall_cons in Hp as [? _]. done.
  - rewrite <- Heq in Hp'. apply Forall_app in Hp' as [_ Hp'].
    apply Forall_cons in Hp' as [? _]. done.
  - by eapply IH.
Qed.

Lemma finish_inet_mtu params st :
  kwargs_of (finish params st) !! "inet_mtu" = st_results st !! "inet_mtu".
Proof.
  unfold finish. destruct (py_eq_int _ _); simpl; [|done].
  by rewrite lookup_insert_ne.
Qed.

Lemma halved_double_le s : 0 ≤ s → 0 ≤ 2 * halved s ≤ s.
Proof.
  unfold halved. intros Hs. destruct (s >=? 2) eqn:Hge; bool_facts; [|lia].
  pose proof (Z.mul_div_le s 2). pose proof (Z.div_pos s 2). lia.
Qed.

(** ** The claims *)

(** C4. If the baseline probe, the first call, reports a loss of 100, the
    run exits with [failed] true, [inet_mtu] 0 and the message that basic
    connectivity to [dest] failed. That call, with payload 40 and the DF
    bit unset, is the only one: the search loop is not entered. *)
Theorem baseline_loss_fails_fast params w c :
  head (calls_of (main params w)) = Some c →
  loss_of (call_results c) = 100 →
  ∃ kw,
    outcome_of (main params w) = exit_json kw ∧
    kw !! "failed" = Some (VBool true) ∧
    kw !! "inet_mtu" = Some (VInt 0) ∧
    kw !! "msg" =
      Some (VStr ("Basic connectivity to " +:+ param_dest params +:+
                  " failed.")) ∧
    calls_of (main params w) = [c] ∧
    call_size c = "40" ∧ call_df_bit c = false.
Proof.
  intros Hhead Hloss.
  destruct (main_run params w) as [(_ & _ & Hnone & _)|[Hvalid _]].
  { rewrite Hnone in Hhead. discriminate. }
  destruct (valid_run params w Hvalid) as (c0 & w1 & Hp & Hrun).
  apply probe_call in Hp as [Hsize Hdf].
  destruct Hrun as [[_ Hmain]|(Hne & st & sc & _ & _ & _ & Hmain)];
    rewrite Hmain in *; unfold calls_of, outcome_of in *; simpl in Hhead;
    injection Hhead as ->; [|done].
  eexists. split; [reflexivity|]. simpl.
  split_and!; try done; dict_lookup.
Qed.

(** The keyword arguments of a run never hold a key other than those of
    the initial [results] and [msg]. *)
Lemma kwargs_keys params w k :
  k ≠ "changed" → k ≠ "failed" → k ≠ "inet_mtu" → k ≠ "dest" → k ≠ "msg" →
  kwargs_of (outcome_of (main params w)) !! k = None.
Proof.
  intros ? ? ? ? ?.
  destruct (main_run params w) as [(_ & Herr & _)|[Hvalid _]].
  { destruct Herr as [->|[m ->]]; simpl; [done|].
    by rewrite lookup_singleton_ne. }
  destruct (valid_run params w Hvalid) as (c0 & w1 & _ & Hrun).
  destruct Hrun as [[_ Hmain]|(_ & st & sc & _ & _ & Hlast & Hmain)];
    rewrite Hmain; unfold outcome_of; simpl.
  { unfold initial_results.
    rewrite !lookup_insert_ne, lookup_singleton_ne; done. }
  apply finish_kwargs in Hlast
    as [(_ & _ & ->)|(? & ? & ? & t & _ & _ & _ & _ & _ & ->)]; simpl;
    unfold confirmed, initial_results;
    rewrite !lookup_insert_ne, lookup_singleton_ne; done.
Qed.

(** C7. A [max_size] outside 68..65496, or a [max_range] that is not one of
    0, 2, 4, ..., 65536, ends the run in a configuration error with no call
    of [run_ping] made and the session untouched; parameters within these
    bounds never end in a configuration error. *)
Theorem configuration_checked_before_probing params w :
  ((param_max_size params < 68 ∨ 65496 < param_max_size params ∨
    param_max_range params ∉
      [0; 2; 4; 8; 16; 32; 64; 128; 256; 512; 1024; 2048; 4096; 8192;
       16384; 32768; 65536]) →
   is_configuration_error (outcome_of (main params w)) ∧
   calls_of (main params w) = [] ∧ (main params w).2 = w) ∧
  (68 ≤ param_max_size params ≤ 65496 →
   param_max_range params ∈
     [0; 2; 4; 8; 16; 32; 64; 128; 256; 512; 1024; 2048; 4096; 8192;
      16384; 32768; 65536] →
   ¬ is_configuration_error (outcome_of (main params w))).
Proof.
  change [0; 2; 4; 8; 16; 32; 64; 128; 256; 512; 1024; 2048; 4096; 8192;
          16384; 32768; 65536] with MAX_SIZE_CHOICES.
  split.
  - intros Hbad.
    destruct (main_run params w) as [(_ & ? & ? & ?)|[[Hrange Hsize] _]];
      [done|].
    unfold INET_MIN_MTU_SIZE, INET_MAX_MTU_SIZE in Hsize.
    destruct Hbad as [?|[?|?]]; [lia | lia | done].
  - intros Hsize Hrange Herr.
    assert (valid_params params) as Hvalid by done.
    assert (kwargs_of (outcome_of (main params w)) !! "changed" = None)
      as Hnone.
    { destruct Herr as [->|[m ->]]; simpl; [done|].
      by rewrite lookup_singleton_ne. }
    destruct (valid_run params w Hvalid) as (c0 & w1 & _ & Hrun).
    destruct Hrun as [[_ Hmain]|(_ & st & sc & _ & _ & Hlast & Hmain)];
      rewrite Hmain in Hnone; unfold outcome_of in Hnone; simpl in Hnone.
    { revert Hnone. dict_lookup. }
    apply finish_kwargs in Hlast
      as [(_ & _ & Hfin)|(? & ? & ? & t & _ & _ & _ & _ & _ & Hfin)];
      rewrite Hfin in Hnone; simpl in Hnone; revert Hnone; dict_lookup.
Qed.

(** C9. The keyword arguments with which a run ends hold neither a
    [source] nor an [interface] key, whatever options the caller gave: the
    inputs that the RETURN block promises to echo are not returned. *)
Theorem source_and_interface_not_returned params w :
  kwargs_of (outcome_of (main params w)) !! "source" = None ∧
  kwargs_of (outcome_of (main params w)) !! "interface" = None.
Proof. split; by apply kwargs_keys. Qed.

(** C5. If the baseline probe succeeds and every search probe reports a
    loss of 100, the run fails with [inet_mtu] 0 and a message that names
    [dest], the minimum tested size [max(68, max_size - max_range + 1)],
    [max_size] and [max_range]. *)
Theorem all_search_probes_lost params w c0 :
  head (calls_of (main params w)) = Some c0 →
  succeeded c0 →
  Forall (λ c, loss_of (call_results c) = 100) (search_calls (main params w)) →
  ∃ kw,
    outcome_of (main params w) = fail_json kw ∧
    kw !! "failed" = Some (VBool true) ∧
    kw !! "inet_mtu" = Some (VInt 0) ∧
    kw !! "msg" =
      Some (VStr
        ("The MTU of the path to " +:+ param_dest params +:+
         " is less than the minimum tested size(" +:+
         str (Z.max 68 (param_max_size params - param_max_range params + 1))
         +:+ "). Try decreasing max_size(" +:+ str (param_max_size params) +:+
         ") or increasing max_range(" +:+ str (param_max_range params) +:+
         ").")).
Proof.
  intros Hhead Hok Hlost.
  destruct (main_run params w) as [(_ & _ & Hnone & _)|[Hvalid _]].
  { rewrite Hnone in Hhead. discriminate. }
  destruct (valid_run params w Hvalid) as (c & w1 & _ & Hrun).
  destruct Hrun as [[Hloss Hmain]|(_ & st & sc & _ & _ & Hlast & Hmain)];
    rewrite Hmain in *; unfold calls_of, search_calls, outcome_of in *;
    simpl in Hhead, Hlost; injection Hhead as ->.
  { unfold succeeded in Hok. lia. }
  simpl. rewrite drop_0 in Hlost.
  apply finish_kwargs in Hlast
    as [(_ & _ & ->)|(pre & c & post & t & -> & Hsucc & _)].
  - eexists. split; [reflexivity|]. split_and!; try dict_lookup.
    do 2 f_equal.
    unfold path_mtu_msg, min_test_size_of, INET_MIN_MTU_SIZE.
    replace (Z.max 68 (param_max_size params - param_max_range params + 1))
      with (if param_max_size params - (param_max_range params - 1) <? 68
            then 68
            else param_max_size params - (param_max_range params - 1)).
    2: { destruct (_ <? 68) eqn:Hlt; bool_facts; lia. }
    reflexivity.
  - apply Forall_app in Hlost as [_ Hlost].
    apply Forall_cons in Hlost as [Hc _].
    unfold succeeded in Hsucc. lia.
Qed.

(** C2. With [max_size] in 68..65496 and [max_range] a power of two, if the
    baseline probe and every search probe report a loss under 100, the run
    stops at the first search probe: it makes two calls, the baseline and a
    probe at [max_size] with the DF bit set, and exits with [failed] false
    and [inet_mtu] equal to [max_size]. *)
Theorem all_probes_succeed params w k c0 :
  68 ≤ param_max_size params ≤ 65496 →
  0 ≤ k → param_max_range params = 2 ^ k →
  head (calls_of (main params w)) = Some c0 →
  Forall succeeded (calls_of (main params w)) →
  ∃ c1 kw,
    calls_of (main params w) = [c0; c1] ∧
    probed_at c1 (param_max_size params) ∧ call_df_bit c1 = true ∧
    outcome_of (main params w) = exit_json kw ∧
    kw !! "failed" = Some (VBool false) ∧
    kw !! "inet_mtu" = Some (VInt (param_max_size params)).
Proof.
  intros Hsize Hk Hrange Hhead Hall.
  destruct (main_run params w)
    as [(_ & _ & Hnone & _)|(_ & c & w1 & _ & Hrun)].
  { rewrite Hnone in Hhead. discriminate. }
  assert (head (calls_of (main params w)) = Some c) as Hc.
  { destruct Hrun as [[_ ->]|[_ ->]]; [done|]. unfold calls_of. simpl.
    destruct (loop_search_calls params c w1) as (sc & -> & _);
      [unfold INET_MIN_MTU_SIZE; lia | done]. }
  rewrite Hhead in Hc. injection Hc as <-.
  destruct Hrun as [[Hloss Hmain]|[_ Hmain]]; rewrite Hmain in *;
    unfold calls_of, outcome_of in *; cbv zeta in *; simpl in Hall |- *.
  { apply Forall_cons in Hall as [Hok _]. unfold succeeded in Hok. lia. }
  set (init := initial_state params c0 w1) in *.
  assert (Forall succeeded (st_trace (loop params init)) →
          ∃ c1, st_trace (loop params init) = [c0; c1] ∧
                probed_at c1 (param_max_size params) ∧
                call_df_bit c1 = true ∧
                st_results (loop params init) =
                confirmed (initial_results (param_dest params))
                  (param_max_size params)) as Hloop.
  { apply (loop_rule params
      (λ st, Forall succeeded (st_trace st) →
             st_test_size st = param_max_size params ∧
             st_trace st = [c0] ∧
             st_results st = initial_results (param_dest params))).
    - intros st st' HI Hb Hsucc.
      apply loop_body_spec in Hb as (c & Htr & _ & _ & _ & Hcase).
      rewrite Htr in Hsucc. apply Forall_app in Hsucc as [Hpre Hc].
      apply Forall_cons in Hc as [Hc _].
      destruct (HI Hpre) as (Ht & _ & _). cbv zeta in Hcase.
      rewrite Ht in Hcase.
      assert (clamped (param_max_size params) (param_max_size params) =
              param_max_size params) as Hcl.
      { unfold clamped, INET_MIN_MTU_SIZE. repeat case_match; lia. }
      rewrite Hcl in Hcase.
      destruct Hcase as [(_ & _ & [(_ & ? & _)|(? & _)])|(? & _)]; done.
    - intros st st' HI Hb Hsucc.
      apply loop_body_spec in Hb as (c & Htr & Hat & Hdf & _ & Hcase).
      rewrite Htr in Hsucc. apply Forall_app in Hsucc as [Hpre Hc].
      apply Forall_cons in Hc as [Hc _].
      destruct (HI Hpre) as (Ht & Htr0 & Hres). cbv zeta in Hcase, Hat.
      rewrite Ht in Hcase, Hat.
      assert (clamped (param_max_size params) (param_max_size params) =
              param_max_size params) as Hcl.
      { unfold clamped, INET_MIN_MTU_SIZE. repeat case_match; lia. }
      rewrite Hcl in Hcase, Hat.
      destruct Hcase as [(_ & Hr & _)|(? & _)]; [|done].
      exists c. rewrite Htr, Htr0, Hr, Hres. done.
    - done. }
  destruct (Hloop Hall) as (c1 & Htr & Hat & Hdf & Hres).
  exists c1. eexists. split_and!; try done.
  - unfold finish. rewrite Hres.
    replace (confirmed _ _ !! "inet_mtu")
      with (Some (VInt (param_max_size params))) by (symmetry; dict_lookup).
    simpl. destruct (_ =? 0) eqn:H0; bool_facts; [lia | reflexivity].
  - dict_lookup.
  - dict_lookup.
Qed.

(** C3. [main] is a total function, so every run ends. With [max_size] in
    68..65496 and [max_range] a power of two from 2 to 65536, a run makes at
    most [ceil(log2(max_range)) + 2] calls of [run_ping], the baseline and
    the search probes, whatever the probes report: every pass of the loop
    halves [step] by floor division, or sets it to 0 once it is below 2, and
    a pass that leaves [step] below 1 is the last. *)
Theorem probe_calls_bounded params w k :
  68 ≤ param_max_size params ≤ 65496 →
  1 ≤ k ≤ 16 → param_max_range params = 2 ^ k →
  (∃ r, main params w = r ∧
        Z.of_nat (length (calls_of r)) ≤
        Z.log2_up (param_max_range params) + 2) ∧
  (∀ st flow st',
     loop_body params st = (flow, st') →
     st_step st' = (if st_step st >=? 2 then st_step st `div` 2 else 0) ∧
     (st_step st' < 1 → flow = Break)).
Proof.
  intros Hsize Hk Hrange. split.
  - eexists. split; [reflexivity|].
    assert (Z.log2_up (param_max_range params) = k) as ->.
    { rewrite Hrange. apply Z.log2_up_pow2. lia. }
    destruct (main_run params w)
      as [(_ & _ & -> & _)|(_ & c0 & w1 & _ & Hrun)]; [simpl; lia|].
    destruct Hrun as [[_ ->]|[_ ->]]; unfold calls_of; simpl; [lia|].
    pose proof (loop_calls_bound params (initial_state params c0 w1)) as Hb.
    simpl in Hb. rewrite Hrange in Hb. unfold passes in Hb.
    assert (1 ≤ 2 ^ k)
      by (apply Z.pow_le_mono_r with (b := 0) (c := k) (a := 2); lia).
    destruct (2 ^ k <? 1) eqn:Hlt; bool_facts; [lia|].
    rewrite Z.log2_pow2 in Hb by lia. lia.
  - intros st flow st' Hb.
    apply loop_body_spec in Hb as (c & _ & _ & _ & Hstep & Hcase).
    cbv zeta in *. split; [done|]. rewrite Hstep. intros Hlt.
    destruct (halved (st_step st) <? 1) eqn:Hh; bool_facts; [|lia].
    destruct Hcase as [(_ & _ & [(_ & ? & _)|(_ & _ & ?)])|(_ & _ & _ & ?)];
      done.
Qed.

(** C6. Every call of the search loop probes a size [t] with
    [68 <= t <= max_size], hands [run_ping] the payload [t - 28], the size
    less the 20 bytes of the IP header and the 8 of the ICMP header, and
    sets the DF bit. *)
Theorem search_probes_clamped params w :
  Forall (λ c, ∃ t, 68 ≤ t ≤ param_max_size params ∧
                    call_size c = str (t - (20 + 8)) ∧
                    call_df_bit c = true)
    (search_calls (main params w)).
Proof.
  apply search_calls_are_probes.
Qed.

(** C10. The run does not depend on the options [df_bit], [size] and
    [state]: with any other values for them and the same session, [main]
    gives the same outcome, the same calls and the same final session. The
    baseline call has the DF bit unset and every search call has it set. *)
Theorem unused_options_ignored params w df_bit size state :
  main (with_unused params df_bit size state) w = main params w ∧
  Forall (λ c, call_df_bit c = false) (take 1 (calls_of (main params w))) ∧
  Forall (λ c, call_df_bit c = true) (search_calls (main params w)).
Proof.
  split_and!.
  - unfold main.
    change (param_max_range (with_unused params df_bit size state))
      with (param_max_range params).
    change (param_max_size (with_unused params df_bit size state))
      with (param_max_size params).
    change (param_dest (with_unused params df_bit size state))
      with (param_dest params).
    change (probe w (with_unused params df_bit size state))
      with (probe w params).
    destruct (negb _); [done|]. destruct (_ || _); [done|].
    destruct (probe _ _ _ _) as [c0 w1]. destruct (_ =? 100); [done|].
    by rewrite (loop_ext (with_unused params df_bit size state) params).
  - destruct (main_run params w) as [(_ & _ & -> & _)|[[_ Hsize] Hrun]];
      [constructor|].
    destruct Hrun as (c0 & w1 & Hp & Hrun).
    apply probe_call in Hp as [_ Hdf].
    destruct Hrun as [[_ ->]|[_ ->]]; unfold calls_of; simpl.
    + by repeat constructor.
    + destruct (loop_search_calls params c0 w1) as (sc & -> & _);
        [apply Hsize|].
      by repeat constructor.
  - eapply Forall_impl; [apply search_calls_are_probes|].
    by intros c (t & _ & _ & Hdf).
Qed.

(** C8. When no line of the text that the device returns starts with
    ["<count> packets transmitted"], [run_ping] reports a packet loss of
    100, which the search does not take for a success. *)
Theorem no_summary_line_is_total_loss w params size df_bit :
  Forall (λ line,
    startswith line (str (param_count params) +:+ " packets transmitted")
    = false)
    (split newline (transport_output w params size df_bit)) →
  packet_loss (run_ping w params size df_bit).1 = Some 100 ∧
  ¬ loss_of (run_ping w params size df_bit).1 < 100.
Proof.
  unfold transport_output, run_ping, loss_of, scan_lines. intros Hlines.
  destruct (conn_get _ _) as [ping_results w']. simpl in Hlines.
  pose proof (scan_no_summary _ _ (None, None) Hlines) as Hscan.
  destruct (foldl _ _ _) as [rtt_info rate_info]. simpl in Hscan.
  subst rate_info. simpl. split; [done | lia].
Qed.

(** A list that ends in [x], cut at one of its elements. *)
Lemma snoc_split {A} (l pre post : list A) (x a : A) :
  l ++ [x] = pre ++ a :: post →
  (post = [] ∧ pre = l ∧ a = x) ∨
  (∃ post0, post = post0 ++ [x] ∧ l = pre ++ a :: post0).
Proof.
  destruct post as [|y post0 _] using rev_ind; intros Heq.
  - left. apply app_inj_tail in Heq as [-> ->]. done.
  - right. exists post0.
    rewrite app_comm_cons, app_assoc in Heq.
    apply app_inj_tail in Heq as [-> ->]. done.
Qed.

(** A success stays under the recorded size and under the sizes still in
    reach for as long as the search does not go back to [max_size]. *)
Lemma loop_body_kept params flow st st' mtu :
  INET_MIN_MTU_SIZE ≤ param_max_size params →
  loop_body params st = (flow, st') →
  st_trace st ≠ [] →
  0 ≤ st_step st →
  st_results st !! "inet_mtu" = Some (VInt mtu) →
  kept_above (param_max_size params) (drop 1 (st_trace st))
    (Z.min mtu (st_test_size st - st_step st)) →
  ∃ mtu',
    st_results st' !! "inet_mtu" = Some (VInt mtu') ∧
    kept_above (param_max_size params) (drop 1 (st_trace st')) mtu' ∧
    (flow = Continue →
     kept_above (param_max_size params) (drop 1 (st_trace st'))
       (Z.min mtu' (st_test_size st' - st_step st'))).
Proof.
  intros Hmax Hb Hne Hs Hmtu Hkept.
  apply loop_body_spec in Hb as (c & Htr & Hat & _ & Hh & Hcase).
  cbv zeta in *.
  pose proof (clamped_cases _ (st_test_size st) Hmax) as Hcl.
  pose proof (halved_double_le _ Hs) as Hdbl.
  unfold INET_MIN_MTU_SIZE in *.
  rewrite Htr, drop1_snoc, Hh by done.
  set (cl := clamped (param_max_size params) (st_test_size st)) in *.
  set (h := halved (st_step st)) in *.
  assert (∀ pre c1 post S bound,
    drop 1 (st_trace st) ++ [c] = pre ++ c1 :: post →
    succeeded c1 → probed_at c1 S →
    Forall (λ c', ¬ probed_at c' (param_max_size params)) post →
    (succeeded c → cl ≤ bound) →
    (cl ≠ param_max_size params →
     Z.min mtu (st_test_size st - st_step st) ≤ bound) →
    S ≤ bound) as Hold.
  { intros pre c1 post S bound Heq Hc1 Hat1 Hpost Hnew Hprev.
    apply snoc_split in Heq as [(-> & -> & ->)|(post0 & -> & Heq)].
    - rewrite (probed_at_inj _ _ _ Hat1 Hat). by apply Hnew.
    - apply Forall_app in Hpost as [Hpost0 [Hc _]%Forall_cons].
      assert (cl ≠ param_max_size params) as Hneq
        by (intros Heq'; apply Hc; by rewrite <- Heq').
      pose proof (Hkept pre c1 post0 S Heq Hc1 Hat1 Hpost0). lia. }
  destruct Hcase as [(Hok & Hres & Hpos)|(Hko & Hres & Htest & _)].
  - exists cl. rewrite Hres, confirmed_inet_mtu. split; [done|]. split.
    + intros pre c1 post S Heq Hc1 Hat1 Hpost.
      apply (Hold pre c1 post S cl Heq Hc1 Hat1 Hpost); lia.
    + intros ->. destruct Hpos as [(_ & ? & _)|(_ & -> & _)]; [done|].
      intros pre c1 post S Heq Hc1 Hat1 Hpost.
      apply (Hold pre c1 post S _ Heq Hc1 Hat1 Hpost); lia.
  - exists mtu. rewrite Hres, Htest. split; [done|]. split.
    + intros pre c1 post S Heq Hc1 Hat1 Hpost.
      apply (Hold pre c1 post S mtu Heq Hc1 Hat1 Hpost); [done | lia].
    + intros _ pre c1 post S Heq Hc1 Hat1 Hpost.
      apply (Hold pre c1 post S _ Heq Hc1 Hat1 Hpost); [done | lia].
Qed.

(** The search ends with a size at least every confirmed size that no
    probe at [max_size] followed. *)
Lemma loop_successes_kept params c0 w1 :
  valid_params params →
  ∃ mtu,
    st_results (loop params (initial_state params c0 w1)) !! "inet_mtu" =
    Some (VInt mtu) ∧
    kept_above (param_max_size params)
      (drop 1 (st_trace (loop params (initial_state params c0 w1)))) mtu.
Proof.
  intros [Hchoice [Hmax _]].
  apply (loop_rule params
    (λ st, st_trace st ≠ [] ∧ 0 ≤ st_step st ∧
           ∃ mtu, st_results st !! "inet_mtu" = Some (VInt mtu) ∧
                  kept_above (param_max_size params) (drop 1 (st_trace st))
                    (Z.min mtu (st_test_size st - st_step st)))).
  - intros st st' (Hne & Hs & mtu & Hmtu & Hkept) Hb.
    pose proof (loop_body_continue _ _ _ Hb) as Hcont.
    pose proof Hb as (c & Htr & _)%loop_body_spec.
    destruct (loop_body_kept params Continue st st' mtu Hmax Hb Hne Hs
                Hmtu Hkept) as (mtu' & Hmtu' & _ & Hnext).
    split_and!; [rewrite Htr; by destruct (st_trace st) | lia |].
    exists mtu'. split; [done | by apply Hnext].
  - intros st st' (Hne & Hs & mtu & Hmtu & Hkept) Hb.
    destruct (loop_body_kept params Break st st' mtu Hmax Hb Hne Hs
                Hmtu Hkept) as (mtu' & Hmtu' & Hkept' & _).
    by exists mtu'.
  - split_and!; [done | |].
    + simpl. destruct (choices_pow2_inv _ Hchoice) as [->|(j & Hj & ->)];
        [done | apply Z.pow_nonneg; lia].
    + exists 0. split; [simpl; dict_lookup|].
      intros [|??] ? ? ? [=].
Qed.

(** When the range of the search stays above 68, only its first probe is at
    [max_size]. *)
Lemma loop_later_probes_below_max params c0 w1 :
  valid_params params →
  68 ≤ param_max_size params - param_max_range params + 1 →
  ∃ c1 rest,
    st_trace (loop params (initial_state params c0 w1)) = c0 :: c1 :: rest ∧
    Forall (λ c, ∃ t, probed_at c t ∧ t < param_max_size params) rest.
Proof.
  intros [Hchoice [Hmax _]] Hlow.
  pose (P := λ c : Call, ∃ t, probed_at c t ∧ t < param_max_size params).
  pose (Q := λ st : SearchState,
    ∃ c1 rest, st_trace st = c0 :: c1 :: rest ∧ Forall P rest).
  pose (I := λ st : SearchState,
    pow2 (st_step st) ∧
    param_max_size params - param_max_range params + 1 ≤
    st_test_size st - st_step st + 1 ∧
    ((st_trace st = [c0] ∧ st_test_size st = param_max_size params) ∨
     (Q st ∧ 1 ≤ st_step st ∧
      st_test_size st + st_step st ≤ param_max_size params))).
  assert (∀ flow st st', I st → loop_body params st = (flow, st') →
    Q st' ∧ (flow = Continue → I st')) as Hstep.
  { intros flow st st' (Hpow & Hl & Hcase0) Hb.
    pose proof (λ Heq : flow = Continue,
      loop_body_continue params st st'
        (eq_ind _ (λ f, loop_body params st = (f, st')) Hb _ Heq)) as Hcont.
    apply loop_body_spec in Hb as (c & Htr & Hat & _ & Hh & Hcase).
    cbv zeta in *.
    pose proof (clamped_cases _ (st_test_size st) Hmax) as Hcl.
    destruct (halved_pow2 _ Hpow) as (Hpow' & Heven & _).
    unfold INET_MIN_MTU_SIZE in *. rewrite Hh in *.
    set (cl := clamped (param_max_size params) (st_test_size st)) in *.
    set (h := halved (st_step st)) in *.
    assert (Q st') as HQ.
    { destruct Hcase0 as [[Htr0 Ht]|((c1 & rest & Htr0 & Hall) & ? & ?)].
      - exists c, []. rewrite Htr, Htr0. by split.
      - exists c1, (rest ++ [c]). rewrite Htr, Htr0. split; [done|].
        apply Forall_app. split; [done|]. constructor; [|done].
        exists cl. split; [done | lia]. }
    split; [done|]. intros Heq. specialize (Hcont Heq). subst flow.
    unfold I. rewrite Hh. fold h.
    split_and!; [done | |].
    - destruct Hcase
        as [(_ & _ & [(_ & ? & _)|(_ & -> & _)])|(_ & _ & -> & _)];
        [done | |]; destruct Hcase0 as [[_ ?]|(_ & ? & ?)]; lia.
    - right. split; [done|]. split; [lia|].
      destruct Hcase
        as [(_ & _ & [(_ & ? & _)|(Hneq & -> & _)])|(_ & _ & -> & _)];
        [done | |]; destruct Hcase0 as [[_ ?]|(_ & ? & ?)]; lia. }
  apply (loop_rule params I Q).
  - intros st st' HI Hb.
    destruct (Hstep Continue st st' HI Hb) as [_ Hnext]. by apply Hnext.
  - intros st st' HI Hb. by destruct (Hstep Break st st' HI Hb) as [? _].
  - split_and!; simpl; [by apply choices_pow2_inv | lia | by left].
Qed.

(** C1, as the code has it. [inet_mtu] is assigned only on a search probe
    with a loss under 100 and only to the size just probed: the run ends
    with the size of the last search probe that succeeded, with 0 when none
    did, and an [inet_mtu] other than 0 is the size of a search probe that
    succeeded. For every sequence of outcomes, a size [S] that a search
    probe confirmed is at most the final [inet_mtu] unless a later probe
    went back to [max_size]; so the final [inet_mtu] is at least every
    confirmed size whenever [max_size - max_range + 1] is at least 68, and,
    for any parameters, whenever the probe outcomes are monotone in size,
    every search probe at a size up to some [M] succeeding and every other
    failing. *)
Theorem inet_mtu_is_last_success params w :
  (∀ pre c post S,
     search_calls (main params w) = pre ++ c :: post →
     succeeded c → Forall (λ c', ¬ succeeded c') post → probed_at c S →
     kwargs_of (outcome_of (main params w)) !! "inet_mtu" = Some (VInt S)) ∧
  (valid_params params →
   Forall (λ c, ¬ succeeded c) (search_calls (main params w)) →
   kwargs_of (outcome_of (main params w)) !! "inet_mtu" = Some (VInt 0)) ∧
  (∀ m,
     kwargs_of (outcome_of (main params w)) !! "inet_mtu" = Some (VInt m) →
     m ≠ 0 →
     ∃ c, c ∈ search_calls (main params w) ∧ succeeded c ∧ probed_at c m) ∧
  (∀ pre c post S,
     search_calls (main params w) = pre ++ c :: post →
     succeeded c → probed_at c S →
     Forall (λ c', ¬ probed_at c' (param_max_size params)) post →
     ∃ m,
       kwargs_of (outcome_of (main params w)) !! "inet_mtu" =
       Some (VInt m) ∧
       S ≤ m) ∧
  (68 ≤ param_max_size params - param_max_range params + 1 →
   ∀ c S,
     c ∈ search_calls (main params w) → succeeded c → probed_at c S →
     ∃ m,
       kwargs_of (outcome_of (main params w)) !! "inet_mtu" =
       Some (VInt m) ∧
       S ≤ m) ∧
  (∀ M c S,
     monotone_in_size M (search_calls (main params w)) →
     c ∈ search_calls (main params w) → succeeded c → probed_at c S →
     ∃ m,
       kwargs_of (outcome_of (main params w)) !! "inet_mtu" =
       Some (VInt m) ∧
       S ≤ m).
Proof.
  pose proof (search_calls_are_probes params w) as Hprobes.
  destruct (main_run params w) as [(Hbad & Herr & Hnone & _)|[Hvalid _]].
  { unfold search_calls. rewrite Hnone. simpl. split_and!.
    - intros [|??] ? ? ? [=].
    - done.
    - intros m Hm. destruct Herr as [Ho|[? Ho]]; rewrite Ho in Hm;
        simpl in Hm; [done|]. by rewrite lookup_singleton_ne in Hm.
    - intros [|??] ? ? ? [=].
    - by intros _ ? ? ?%elem_of_nil.
    - by intros ? ? ? _ ?%elem_of_nil. }
  destruct (valid_run params w Hvalid) as (c0 & w1 & _ & Hrun).
  destruct Hrun as [[_ Hmain]|(_ & st & sc & Hst & Htr & Hlast & Hmain)];
    rewrite Hmain in *; unfold search_calls, calls_of, outcome_of in *;
    simpl in Hprobes |- *.
  { split_and!.
    - intros [|??] ? ? ? [=].
    - intros _ _. dict_lookup.
    - intros m. dict_lookup. by intros [= <-].
    - intros [|??] ? ? ? [=].
    - by intros _ ? ? ?%elem_of_nil.
    - by intros ? ? ? _ ?%elem_of_nil. }
  rewrite drop_0 in *.
  assert (∀ pre c post S,
    sc = pre ++ c :: post → succeeded c → probed_at c S →
    Forall (λ c', ¬ probed_at c' (param_max_size params)) post →
    ∃ m, kwargs_of (finish params st) !! "inet_mtu" = Some (VInt m) ∧
         S ≤ m) as Hkept.
  { intros pre c post S Heq Hc Hat Hpost.
    destruct (loop_successes_kept params c0 w1 Hvalid) as (m & Hm & Hall).
    rewrite <- Hst in Hm, Hall. rewrite Htr in Hall. simpl in Hall.
    rewrite drop_0 in Hall.
    exists m. split; [by rewrite finish_inet_mtu|].
    by apply (Hall pre c post S). }
  assert (68 ≤ param_max_size params - param_max_range params + 1 →
    ∀ c S, c ∈ sc → succeeded c → probed_at c S →
    ∃ m, kwargs_of (finish params st) !! "inet_mtu" = Some (VInt m) ∧
         S ≤ m) as Hparams.
  { intros Hlow c S Hin Hc Hat.
    destruct (loop_later_probes_below_max params c0 w1 Hvalid Hlow)
      as (c1 & rest & Htr' & Hrest).
    rewrite <- Hst, Htr in Htr'. injection Htr' as ->.
    apply list_elem_of_split in Hin as (pre & post & Heq).
    apply (Hkept pre c post S Heq Hc Hat).
    assert (Forall (λ c', ∃ t, probed_at c' t ∧ t < param_max_size params)
              post) as Hpost.
    { destruct pre as [|? pre]; simpl in Heq; injection Heq as _ Heq.
      - by rewrite <- Heq.
      - rewrite Heq in Hrest.
        by apply Forall_app in Hrest as [_ [_ ?]%Forall_cons]. }
    eapply Forall_impl; [exact Hpost|].
    intros c' (t & Hat' & Hlt) Hmax.
    pose proof (probed_at_inj _ _ _ Hat' Hmax). lia. }
  pose proof Hlast as Hfin. apply finish_kwargs in Hfin.
  destruct Hfin as [(Hall & _ & Hfin)|
                    (pre' & c' & post' & t & Hsc & Hc' & Hat' & Hpost' & Ht & Hfin)].
  - (* no search probe succeeded *)
    split_and!; [| | |done|done|].
    + intros pre c post S -> Hc. apply Forall_app in Hall as [_ Hall].
      apply Forall_cons in Hall as [? _]. done.
    + intros _ _. rewrite Hfin. simpl. dict_lookup.
    + intros m. rewrite Hfin. simpl. dict_lookup. by intros [= <-].
    + intros M c S _ Hin Hc. rewrite Forall_forall in Hall.
      by apply Hall in Hin.
  - (* the last success was [c'] at size [t] *)
    split_and!; [| | |done|done|].
    + intros pre c post S Heq Hc Hpost Hat. rewrite Hsc in Heq.
      assert (c = c') as -> by (by eapply last_success_unique).
      rewrite (probed_at_inj _ _ _ Hat Hat'), Hfin. simpl.
      apply confirmed_inet_mtu.
    + intros _ Hnone. rewrite Hsc in Hnone.
      by apply Forall_app in Hnone as [_ [? _]%Forall_cons].
    + intros m. rewrite Hfin. simpl. rewrite confirmed_inet_mtu.
      intros [= <-] _. exists c'. split_and!; try done.
      rewrite Hsc. apply elem_of_app. right. by left.
    + intros M c S Hmono Hin Hc Hat.
      exists (Z.min M (param_max_size params)).
      pose proof (loop_monotone params c0 w1 M Hvalid) as Hloop.
      cbv zeta in Hloop. rewrite <- Hst, Htr in Hloop. simpl in Hloop.
      rewrite drop_0 in Hloop.
      destruct (Hloop Hmono) as [Hnone|Hmtu].
      { rewrite Forall_forall in Hnone. by apply Hnone in Hin. }
      split; [by rewrite finish_inet_mtu|].
      unfold monotone_in_size in Hmono.
      rewrite Forall_forall in Hmono, Hprobes.
      destruct (Hmono c Hin) as (t1 & Hat1 & Hiff).
      destruct (Hprobes c Hin) as (t2 & Hrange & Hat2 & _).
      rewrite (probed_at_inj _ _ _ Hat1 Hat) in Hiff.
      rewrite (probed_at_inj _ _ _ Hat2 Hat) in Hrange.
      apply Hiff in Hc. lia.
Qed.

(** ** Further properties of the search *)

(** A run that gets past the baseline probe. *)
Lemma searched_run params w c0 :
  head (calls_of (main params w)) = Some c0 →
  loss_of (call_results c0) ≠ 100 →
  valid_params params ∧
  ∃ w1 st sc,
    st = loop params (initial_state params c0 w1) ∧
    st_trace st = c0 :: sc ∧
    last_success (param_max_size params) sc
      (initial_results (param_dest params)) (st_results st) ∧
    main params w = (finish params st, c0 :: sc, st_world st).
Proof.
  intros Hhead Hloss.
  destruct (main_run params w) as [(_ & _ & Hnone & _)|[Hvalid _]].
  { rewrite Hnone in Hhead. discriminate. }
  split; [done|].
  destruct (valid_run params w Hvalid) as (c & w1 & _ & Hrun).
  destruct Hrun as [[Hc Hmain]|(_ & st & sc & Hst & Htr & Hlast & Hmain)];
    rewrite Hmain in Hhead; unfold calls_of in Hhead; simpl in Hhead;
    injection Hhead as ->; [done|].
  by exists w1, st, sc.
Qed.

Lemma min_test_size_of_max params :
  min_test_size_of params =
  Z.max 68 (param_max_size params - param_max_range params + 1).
Proof.
  unfold min_test_size_of, INET_MIN_MTU_SIZE. cbv zeta.
  destruct (_ <? 68) eqn:Hlt; bool_facts; lia.
Qed.

(** With a [max_range] of at least 1, no pass of the loop probes under
    [min_test_size]. *)
Lemma loop_probes_at_least_min params c0 w1 :
  INET_MIN_MTU_SIZE ≤ param_max_size params →
  1 ≤ param_max_range params →
  ∃ sc, st_trace (loop params (initial_state params c0 w1)) = c0 :: sc ∧
        Forall (λ c, ∃ t, probed_at c t ∧
                          min_test_size_of params ≤ t ≤ param_max_size params)
          sc.
Proof.
  intros Hmax Hrange.
  pose (P := λ c : Call, ∃ t, probed_at c t ∧
    min_test_size_of params ≤ t ≤ param_max_size params).
  pose (I := λ st : SearchState,
    (∃ sc, st_trace st = c0 :: sc ∧ Forall P sc) ∧
    1 ≤ st_step st ≤ param_max_range params ∧
    param_max_size params - param_max_range params + 1 ≤
    st_test_size st - st_step st + 1).
  assert (∀ flow st st', I st → loop_body params st = (flow, st') →
    (∃ sc, st_trace st' = c0 :: sc ∧ Forall P sc) ∧
    (flow = Continue → I st')) as Hstep.
  { intros flow st st' ((sc & Hsc & Hall) & Hs & Ht) Hb.
    pose proof Hb as (c & Htr & Hat & _ & Hh & Hcase)%loop_body_spec.
    cbv zeta in *.
    pose proof (clamped_cases _ (st_test_size st) Hmax) as Hcl.
    pose proof (halved_double_le (st_step st)) as Hdbl.
    unfold INET_MIN_MTU_SIZE in *.
    set (cl := clamped (param_max_size params) (st_test_size st)) in *.
    assert (∃ sc', st_trace st' = c0 :: sc' ∧ Forall P sc') as Htrace.
    { exists (sc ++ [c]). rewrite Htr, Hsc. split; [done|].
      apply Forall_app. split; [done|]. constructor; [|done].
      exists cl. split; [done|]. rewrite min_test_size_of_max. lia. }
    split; [done|]. intros ->. split; [done|].
    pose proof (loop_body_continue _ _ _ Hb) as Hcont.
    rewrite Hh in *.
    destruct Hcase as [(_ & _ & [(_ & ? & _)|(_ & -> & _)])|(_ & _ & -> & _)];
      [done | lia | lia]. }
  assert (I (initial_state params c0 w1)) as Hinit.
  { split_and!; simpl; try lia. exists []. by split. }
  apply (loop_rule params I (λ st, ∃ sc, st_trace st = c0 :: sc ∧ Forall P sc));
    [| |done].
  - intros st st' HI Hb.
    destruct (Hstep Continue st st' HI Hb) as [_ Hnext]. by apply Hnext.
  - intros st st' HI Hb. by destruct (Hstep Break st st' HI Hb) as [? _].
Qed.

(** When every search probe fails, the last one is at [min_test_size]. *)
Lemma loop_all_failed_last params c0 w1 :
  valid_params params →
  1 ≤ param_max_range params →
  Forall (λ c, ¬ succeeded c)
    (drop 1 (st_trace (loop params (initial_state params c0 w1)))) →
  ∃ sc c,
    st_trace (loop params (initial_state params c0 w1)) = c0 :: sc ++ [c] ∧
    probed_at c (min_test_size_of params).
Proof.
  intros [Hchoice [Hmax _]] Hrange.
  pose (none := λ st : SearchState,
    Forall (λ c, ¬ succeeded c) (drop 1 (st_trace st))).
  apply (loop_rule params
    (λ st, (∃ sc, st_trace st = c0 :: sc) ∧
           (none st →
            pow2 (st_step st) ∧ 1 ≤ st_step st ∧
            st_test_size st ≤ param_max_size params ∧
            Z.max 68 (st_test_size st - st_step st + 1) =
            min_test_size_of params))
    (λ st, none st →
           ∃ sc c, st_trace st = c0 :: sc ++ [c] ∧
                   probed_at c (min_test_size_of params))).
  - intros st st' [[sc Hsc] HI] Hb.
    pose proof (loop_body_continue _ _ _ Hb) as Hcont.
    apply loop_body_spec in Hb as (c & Htr & Hat & _ & Hh & Hcase).
    split; [exists (sc ++ [c]); by rewrite Htr, Hsc|].
    unfold none in *. cbv beta in *.
    rewrite Htr, drop1_snoc by (by rewrite Hsc).
    intros [Hpre Hc]%Forall_app. apply Forall_cons in Hc as [Hc _].
    destruct (HI Hpre) as (Hpow & Hs & Ht & Hm). cbv zeta in *.
    destruct (halved_pow2 _ Hpow) as (Hpow' & Heven & _).
    pose proof (clamped_cases _ (st_test_size st) Hmax) as Hcl.
    unfold INET_MIN_MTU_SIZE in *. rewrite Hh in *.
    destruct Hcase as [(? & _)|(_ & _ & -> & _)]; [done|].
    split_and!; [done | lia | lia | lia].
  - intros st st' [[sc Hsc] HI] Hb.
    apply loop_body_spec in Hb as (c & Htr & Hat & _ & Hh & Hcase).
    unfold none in *. cbv beta in *.
    rewrite Htr, drop1_snoc by (by rewrite Hsc).
    intros [Hpre Hc]%Forall_app. apply Forall_cons in Hc as [Hc _].
    destruct (HI Hpre) as (Hpow & Hs & Ht & Hm). cbv zeta in *.
    destruct (halved_pow2 _ Hpow) as (_ & Heven & Hsmall).
    pose proof (clamped_cases _ (st_test_size st) Hmax) as Hcl.
    unfold INET_MIN_MTU_SIZE in *.
    destruct Hcase as [(? & _)|(_ & _ & _ & Hflow)]; [done|].
    destruct (halved (st_step st) <? 1) eqn:Hlt; bool_facts; [|done].
    exists sc, c. rewrite Hsc. split; [done|].
    replace (min_test_size_of params)
      with (clamped (param_max_size params) (st_test_size st)) by lia.
    done.
  - split; [by exists []|]. intros _. simpl.
    split_and!; [by apply choices_pow2_inv | done | lia |].
    rewrite min_test_size_of_max. lia.
Qed.

(** The loop starts with a probe at [max_size]. *)
Lemma loop_first_probe params c0 w1 :
  INET_MIN_MTU_SIZE ≤ param_max_size params →
  ∃ c l,
    st_trace (loop params (initial_state params c0 w1)) = c0 :: c :: l ∧
    probed_at c (param_max_size params) ∧ call_df_bit c = true.
Proof.
  intros Hmax.
  pose (Q := λ st : SearchState,
    ∃ c l, st_trace st = c0 :: c :: l ∧
           probed_at c (param_max_size params) ∧ call_df_bit c = true).
  pose (I := λ st : SearchState,
    (st_trace st = [c0] ∧ st_test_size st = param_max_size params) ∨ Q st).
  assert (∀ flow st st', I st → loop_body params st = (flow, st') → Q st')
    as Hstep.
  { intros flow st st' HI Hb.
    apply loop_body_spec in Hb as (c & Htr & Hat & Hdf & _).
    cbv zeta in *. destruct HI as [[Hsc Ht]|(c1 & l & Hsc & ? & ?)].
    - exists c, []. rewrite Htr, Hsc. split_and!; try done.
      rewrite Ht in Hat.
      pose proof (clamped_cases _ (param_max_size params) Hmax) as Hcl.
      unfold INET_MIN_MTU_SIZE in *.
      assert (clamped (param_max_size params) (param_max_size params) =
              param_max_size params) as Heq by lia.
      by rewrite Heq in Hat.
    - exists c1, (l ++ [c]). rewrite Htr, Hsc. done. }
  apply (loop_rule params I Q).
  - intros st st' HI Hb. right. by eapply Hstep.
  - intros st st' HI Hb. by eapply Hstep.
  - by left.
Qed.

Lemma passes_exact s :
  pow2 s →
  (1 ≤ halved s → passes s = passes (halved s) + 1) ∧
  (halved s < 1 → passes s = 1).
Proof.
  intros Hpow. destruct (halved_pow2 _ Hpow) as (_ & Heven & Hsmall).
  assert (0 ≤ s).
  { destruct Hpow as [->|(j & Hj & ->)]; [done|].
    apply Z.pow_nonneg. lia. }
  unfold passes. split; intros Hh.
  - assert (2 ≤ s) by (destruct (decide (2 ≤ s)); [done | lia]).
    pose proof (Z.log2_double (halved s) ltac:(lia)) as Hlog.
    rewrite <- (Heven ltac:(done)) in Hlog.
    destruct (s <? 1) eqn:H1; bool_facts; [lia|].
    destruct (halved s <? 1) eqn:H2; bool_facts; lia.
  - assert (s < 2) by (destruct (decide (2 ≤ s)); [lia | lia]).
    destruct (s <? 1) eqn:H1; bool_facts; [done|].
    assert (s = 1) as -> by lia. reflexivity.
Qed.

(** Unless a probe at [max_size] succeeds, the loop makes all the passes
    that [max_range] allows. *)
Lemma loop_exact_count params c0 w1 :
  valid_params params →
  Forall (λ c, ¬ (succeeded c ∧ probed_at c (param_max_size params)))
    (drop 1 (st_trace (loop params (initial_state params c0 w1)))) →
  Z.of_nat (length (st_trace (loop params (initial_state params c0 w1)))) =
  1 + passes (param_max_range params).
Proof.
  intros [Hchoice [Hmax _]].
  pose (quiet := λ st : SearchState,
    Forall (λ c, ¬ (succeeded c ∧ probed_at c (param_max_size params)))
      (drop 1 (st_trace st))).
  apply (loop_rule params
    (λ st, st_trace st ≠ [] ∧ pow2 (st_step st) ∧
           (quiet st →
            Z.of_nat (length (st_trace st)) + passes (st_step st) =
            1 + passes (param_max_range params)))
    (λ st, quiet st →
           Z.of_nat (length (st_trace st)) =
           1 + passes (param_max_range params))).
  - intros st st' (Hne & Hpow & HI) Hb.
    pose proof (loop_body_continue _ _ _ Hb) as Hcont.
    apply loop_body_spec in Hb as (c & Htr & _ & _ & Hh & _).
    split_and!.
    + rewrite Htr. by destruct (st_trace st).
    + rewrite Hh. by apply halved_pow2.
    + unfold quiet in *. cbv beta in *.
      rewrite Htr, drop1_snoc by done. intros [Hpre _]%Forall_app.
      rewrite length_app, Hh. simpl. rewrite Hh in Hcont.
      destruct (passes_exact _ Hpow) as [Hp _]. specialize (HI Hpre). lia.
  - intros st st' (Hne & Hpow & HI) Hb.
    apply loop_body_spec in Hb as (c & Htr & Hat & _ & Hh & Hcase).
    unfold quiet in *. cbv beta zeta in *.
    rewrite Htr, drop1_snoc by done. intros [Hpre Hc]%Forall_app.
    apply Forall_cons in Hc as [Hc _].
    rewrite length_app. simpl. specialize (HI Hpre).
    destruct (passes_exact _ Hpow) as [_ Hp].
    destruct (halved (st_step st) <? 1) eqn:Hlt; bool_facts.
    + lia.
    + destruct Hcase as [(? & _ & [(Heq & _)|(_ & _ & ?)])|(_ & _ & _ & ?)];
        try done.
      rewrite Heq in Hat. tauto.
  - split_and!; [done | by apply choices_pow2_inv |]. intros _. simpl. lia.
Qed.

(** The line scan keeps the last line that starts a loss summary. *)
Lemma scan_last_summary count pre line post acc :
  startswith line (str count +:+ " packets transmitted") = true →
  Forall (λ l,
    startswith l (str count +:+ " packets transmitted") = false) post →
  (foldl (scan_line count) acc (pre ++ line :: post)).2 = Some line.
Proof.
  intros Hline Hpost. rewrite foldl_app. simpl.
  rewrite scan_no_summary by done.
  destruct (foldl (scan_line count) acc pre) as [rtt_info rate_info].
  unfold scan_line. by rewrite Hline.
Qed.

(** The line scan keeps the last line that starts with round-trip, or
    nothing when there is none. *)
Lemma scan_no_rtt count lines acc :
  Forall (λ l, startswith l "round-trip" = false) lines →
  (foldl (scan_line count) acc lines).1 = acc.1.
Proof.
  intros Hall. revert acc.
  induction Hall as [|line lines Hline _ IH]; intros [rtt_info rate_info];
    [done|].
  simpl. rewrite IH. unfold scan_line. by rewrite Hline.
Qed.

Lemma scan_last_rtt count pre line post acc :
  startswith line "round-trip" = true →
  Forall (λ l, startswith l "round-trip" = false) post →
  (foldl (scan_line count) acc (pre ++ line :: post)).1 = Some line.
Proof.
  intros Hline Hpost. rewrite foldl_app. simpl.
  rewrite scan_no_rtt by done.
  destruct (foldl (scan_line count) acc pre) as [rtt_info rate_info].
  unfold scan_line. by rewrite Hline.
Qed.

(** X1. On a path that carries exactly the sizes up to [M], with a
    [max_range] other than 0 and [M] at least [min_test_size], a run that
    gets past the baseline probe exits with [failed] false, no [msg], and
    [inet_mtu] the lesser of [M] and [max_size]. *)
Theorem threshold_path_mtu_reported params w c0 M :
  1 ≤ param_max_range params →
  head (calls_of (main params w)) = Some c0 →
  loss_of (call_results c0) ≠ 100 →
  monotone_in_size M (search_calls (main params w)) →
  min_test_size_of params ≤ M →
  ∃ kw,
    outcome_of (main params w) = exit_json kw ∧
    kw !! "failed" = Some (VBool false) ∧
    kw !! "inet_mtu" = Some (VInt (Z.min M (param_max_size params))) ∧
    kw !! "msg" = None.
Proof.
  intros Hrange Hhead Hloss Hmono HM.
  destruct (searched_run params w c0 Hhead Hloss)
    as (Hvalid & w1 & st & sc & Hst & Htr & Hlast & Hmain).
  rewrite Hmain in *. unfold search_calls, calls_of, outcome_of in *.
  simpl in Hmono |- *. rewrite drop_0 in Hmono.
  pose proof (loop_monotone params c0 w1 M Hvalid) as Hloop.
  pose proof (loop_all_failed_last params c0 w1 Hvalid Hrange) as Hlow.
  cbv zeta in Hloop. rewrite <- Hst, Htr in Hloop, Hlow.
  simpl in Hloop, Hlow. rewrite drop_0 in Hloop, Hlow.
  assert (st_results st !! "inet_mtu" =
          Some (VInt (Z.min M (param_max_size params)))) as Hmtu.
  { destruct (Hloop Hmono) as [Hnone|?]; [|done].
    destruct (Hlow Hnone) as (sc' & c & [= ->] & Hat).
    apply Forall_app in Hnone as [_ [Hc _]%Forall_cons].
    apply Forall_app in Hmono as [_ [(t & Hat' & Hiff) _]%Forall_cons].
    rewrite (probed_at_inj _ _ _ Hat' Hat) in Hiff. tauto. }
  assert (68 ≤ Z.min M (param_max_size params)).
  { destruct Hvalid as [_ [? _]]. rewrite min_test_size_of_max in HM.
    unfold INET_MIN_MTU_SIZE in *. lia. }
  destruct Hlast as [[_ Hres]|(? & ? & ? & t & _ & _ & _ & _ & _ & Hres)];
    rewrite Hres in Hmtu; revert Hmtu.
  { dict_lookup. intros [= Hzero]. lia. }
  rewrite confirmed_inet_mtu. intros [= ->].
  exists (st_results st). unfold finish.
  rewrite Hres, confirmed_inet_mtu. simpl.
  destruct (_ =? 0) eqn:H0; bool_facts; [lia|].
  split_and!; try done; dict_lookup.
Qed.

(** X2. On a path that carries exactly the sizes up to [M], with a
    [max_range] other than 0 and [M] under [min_test_size], a run that gets
    past the baseline probe fails with [inet_mtu] 0 and the message that
    the path MTU is less than the minimum tested size. *)
Theorem threshold_below_range_fails params w c0 M :
  1 ≤ param_max_range params →
  head (calls_of (main params w)) = Some c0 →
  loss_of (call_results c0) ≠ 100 →
  monotone_in_size M (search_calls (main params w)) →
  M < min_test_size_of params →
  ∃ kw,
    outcome_of (main params w) = fail_json kw ∧
    kw !! "failed" = Some (VBool true) ∧
    kw !! "inet_mtu" = Some (VInt 0) ∧
    kw !! "msg" =
      Some (VStr (path_mtu_msg (param_dest params) (min_test_size_of params)
                    (param_max_size params) (param_max_range params))).
Proof.
  intros Hrange Hhead Hloss Hmono HM.
  destruct (searched_run params w c0 Hhead Hloss)
    as (Hvalid & w1 & st & sc & Hst & Htr & Hlast & Hmain).
  rewrite Hmain in *. unfold search_calls, calls_of, outcome_of in *.
  simpl in Hmono |- *. rewrite drop_0 in Hmono.
  destruct (loop_probes_at_least_min params c0 w1) as (sc' & Htr' & Hmin);
    [apply Hvalid | done |].
  rewrite <- Hst, Htr in Htr'. injection Htr' as <-.
  assert (Forall (λ c, ¬ succeeded c) sc) as Hnone.
  { unfold monotone_in_size in Hmono. rewrite Forall_forall in Hmono, Hmin.
    apply Forall_forall. intros c Hin Hc.
    destruct (Hmono c Hin) as (t & Hat & Hiff).
    destruct (Hmin c Hin) as (t' & Hat' & Ht').
    rewrite (probed_at_inj _ _ _ Hat' Hat) in Ht'. apply Hiff in Hc. lia. }
  apply finish_kwargs in Hlast
    as [(_ & _ & ->)|(pre & c & post & t & -> & Hc & _)].
  - eexists. split; [reflexivity|]. split_and!; dict_lookup.
  - apply Forall_app in Hnone as [_ [? _]%Forall_cons]. done.
Qed.

(** X3. With a [max_range] other than 0, every search probe is at a size
    from [min_test_size], the size named in the failure message, to
    [max_size]. *)
Theorem search_probes_at_least_min_test_size params w :
  1 ≤ param_max_range params →
  Forall (λ c, ∃ t, probed_at c t ∧
                    min_test_size_of params ≤ t ≤ param_max_size params)
    (search_calls (main params w)).
Proof.
  intros Hrange.
  destruct (main_run params w) as [(_ & _ & Hnone & _)|[[_ Hsize] Hrun]].
  { unfold search_calls. rewrite Hnone. constructor. }
  destruct Hrun as (c0 & w1 & _ & [[_ ->]|[_ ->]]);
    unfold search_calls, calls_of; simpl; [constructor|].
  destruct (loop_probes_at_least_min params c0 w1) as (sc & -> & Hall);
    [apply Hsize | done | done].
Qed.

(** X4. With a [max_range] other than 0, when every search probe fails the
    last probe made is at [min_test_size]: the failure message names a size
    that was tested. *)
Theorem all_failed_min_test_size_probed params w c0 :
  1 ≤ param_max_range params →
  head (calls_of (main params w)) = Some c0 →
  loss_of (call_results c0) ≠ 100 →
  Forall (λ c, ¬ succeeded c) (search_calls (main params w)) →
  ∃ c, last (search_calls (main params w)) = Some c ∧
       probed_at c (min_test_size_of params) ∧ ¬ succeeded c.
Proof.
  intros Hrange Hhead Hloss Hnone.
  destruct (searched_run params w c0 Hhead Hloss)
    as (Hvalid & w1 & st & sc & Hst & Htr & _ & Hmain).
  rewrite Hmain in *. unfold search_calls, calls_of in *.
  simpl in Hnone |- *. rewrite drop_0 in *.
  pose proof (loop_all_failed_last params c0 w1 Hvalid Hrange) as Hlow.
  rewrite <- Hst, Htr in Hlow. simpl in Hlow. rewrite drop_0 in Hlow.
  destruct (Hlow Hnone) as (sc' & c & [= ->] & Hat).
  exists c. rewrite last_snoc. split_and!; try done.
  by apply Forall_app in Hnone as [_ [? _]%Forall_cons].
Qed.

(** X5. With parameters that pass the checks, the result always carries
    [changed] false, the [dest] given, a [failed] flag and an [inet_mtu].
    [failed] is false exactly when [inet_mtu] is not 0, a reported
    [inet_mtu] other than 0 lies from 68 to [max_size], a [msg] is present
    exactly when [failed] is true, and a result with [failed] false is
    handed to [exit_json]. *)
Theorem result_contract params w :
  valid_params params →
  ∃ failed mtu,
    kwargs_of (outcome_of (main params w)) !! "changed" =
      Some (VBool false) ∧
    kwargs_of (outcome_of (main params w)) !! "dest" =
      Some (VStr (param_dest params)) ∧
    kwargs_of (outcome_of (main params w)) !! "failed" =
      Some (VBool failed) ∧
    kwargs_of (outcome_of (main params w)) !! "inet_mtu" =
      Some (VInt mtu) ∧
    (failed = false ↔ mtu ≠ 0) ∧
    (mtu ≠ 0 → 68 ≤ mtu ≤ param_max_size params) ∧
    (failed = false ↔
     kwargs_of (outcome_of (main params w)) !! "msg" = None) ∧
    (failed = false →
     ∃ kw, outcome_of (main params w) = exit_json kw).
Proof.
  intros Hvalid.
  destruct (valid_run params w Hvalid) as (c0 & w1 & _ & Hrun).
  destruct Hrun as [[_ Hmain]|(_ & st & sc & _ & _ & Hlast & Hmain)];
    rewrite Hmain; unfold outcome_of; simpl.
  { exists true, 0. split_and!; try dict_lookup; done. }
  apply finish_kwargs in Hlast
    as [(_ & _ & ->)|(? & ? & ? & t & _ & _ & _ & _ & Ht & ->)]; simpl.
  - exists true, 0. split_and!; try dict_lookup; done.
  - exists false, t. unfold INET_MIN_MTU_SIZE in Ht.
    split_and!; try dict_lookup; try done; try lia.
    intros _. by eexists.
Qed.

(** X6. The search ends early only on a success at [max_size]: with
    [max_range] the power of two [2 ^ k], a run that gets past the baseline
    probe and in which no probe at [max_size] succeeds makes exactly
    [k + 1] search probes. *)
Theorem search_probe_count_exact params w k c0 :
  0 ≤ k → param_max_range params = 2 ^ k →
  head (calls_of (main params w)) = Some c0 →
  loss_of (call_results c0) ≠ 100 →
  Forall (λ c, ¬ (succeeded c ∧ probed_at c (param_max_size params)))
    (search_calls (main params w)) →
  Z.of_nat (length (search_calls (main params w))) = k + 1.
Proof.
  intros Hk Hrange Hhead Hloss Hquiet.
  destruct (searched_run params w c0 Hhead Hloss)
    as (Hvalid & w1 & st & sc & Hst & Htr & _ & Hmain).
  rewrite Hmain in *. unfold search_calls, calls_of in *.
  simpl in Hquiet |- *. rewrite drop_0 in *.
  pose proof (loop_exact_count params c0 w1 Hvalid) as Hcount.
  rewrite <- Hst, Htr in Hcount. simpl in Hcount. rewrite drop_0 in Hcount.
  specialize (Hcount Hquiet). rewrite Hrange in Hcount. unfold passes in Hcount.
  assert (1 ≤ 2 ^ k)
    by (apply Z.pow_le_mono_r with (b := 0) (c := k) (a := 2); lia).
  destruct (2 ^ k <? 1) eqn:Hlt; bool_facts; [lia|].
  rewrite Z.log2_pow2 in Hcount by lia. lia.
Qed.

(** X7. A run that gets past the baseline probe makes at least one search
    probe, and the first is at [max_size] with the DF bit set, whatever
    [max_range] is. *)
Theorem first_search_probe_at_max_size params w c0 :
  head (calls_of (main params w)) = Some c0 →
  loss_of (call_results c0) ≠ 100 →
  ∃ c rest,
    search_calls (main params w) = c :: rest ∧
    probed_at c (param_max_size params) ∧ call_df_bit c = true.
Proof.
  intros Hhead Hloss.
  destruct (searched_run params w c0 Hhead Hloss)
    as (Hvalid & w1 & st & sc & Hst & Htr & _ & Hmain).
  rewrite Hmain. unfold search_calls, calls_of. simpl. rewrite drop_0.
  destruct (loop_first_probe params c0 w1) as (c & l & Htr' & Hat & Hdf);
    [apply Hvalid|].
  rewrite <- Hst, Htr in Htr'. injection Htr' as ->.
  by exists c, l.
Qed.

(** X8. With [max_range] 0 a run that gets past the baseline probe makes one
    search probe, at [max_size]. If it succeeds the run exits with
    [inet_mtu] equal to [max_size]; if it fails the run fails with a
    message that names [max_size + 1] as the minimum tested size. *)
Theorem range_zero_single_probe params w c0 :
  param_max_range params = 0 →
  head (calls_of (main params w)) = Some c0 →
  loss_of (call_results c0) ≠ 100 →
  ∃ c,
    search_calls (main params w) = [c] ∧
    probed_at c (param_max_size params) ∧
    (succeeded c →
     ∃ kw, outcome_of (main params w) = exit_json kw ∧
           kw !! "failed" = Some (VBool false) ∧
           kw !! "inet_mtu" = Some (VInt (param_max_size params))) ∧
    (¬ succeeded c →
     ∃ kw, outcome_of (main params w) = fail_json kw ∧
           kw !! "inet_mtu" = Some (VInt 0) ∧
           kw !! "msg" =
             Some (VStr
               ("The MTU of the path to " +:+ param_dest params +:+
                " is less than the minimum tested size(" +:+
                str (param_max_size params + 1) +:+
                "). Try decreasing max_size(" +:+
                str (param_max_size params) +:+
                ") or increasing max_range(0)."))).
Proof.
  intros Hrange Hhead Hloss.
  destruct (searched_run params w c0 Hhead Hloss)
    as (Hvalid & w1 & st & sc & Hst & Htr & Hlast & Hmain).
  rewrite Hmain. unfold search_calls, calls_of, outcome_of. simpl.
  rewrite drop_0.
  destruct (loop_first_probe params c0 w1) as (c & l & Htr' & Hat & Hdf);
    [apply Hvalid|].
  pose proof (loop_calls_bound params (initial_state params c0 w1)) as Hlen.
  rewrite Htr' in Hlen. simpl in Hlen. rewrite Hrange in Hlen.
  change (passes 0) with 1 in Hlen.
  assert (l = []) as -> by (destruct l; [done | simpl in Hlen; lia]).
  rewrite <- Hst, Htr in Htr'. injection Htr' as ->.
  exists c. split_and!; try done.
  - intros Hc.
    apply finish_kwargs in Hlast
      as [([Hnone _]%Forall_cons & _)|
          (pre & c' & post & t & Heq & _ & Hat' & _ & _ & ->)]; [done|].
    assert (c' = c) as ->.
    { destruct pre as [|? [|??]]; simpl in Heq; by injection Heq. }
    rewrite (probed_at_inj _ _ _ Hat' Hat).
    eexists. split; [reflexivity|]. split; dict_lookup.
  - intros Hc.
    apply finish_kwargs in Hlast
      as [(_ & _ & ->)|(pre & c' & post & t & Heq & Hc' & _)].
    + eexists. split; [reflexivity|]. split; [dict_lookup|].
      rewrite lookup_insert_eq. do 2 f_equal.
      unfold path_mtu_msg, min_test_size_of, INET_MIN_MTU_SIZE.
      rewrite Hrange. destruct Hvalid as [_ [Hmin _]].
      unfold INET_MIN_MTU_SIZE in Hmin.
      destruct (_ <? 68) eqn:Hlt; bool_facts; [lia|].
      replace (param_max_size params - (0 - 1))
        with (param_max_size params + 1) by lia.
      reflexivity.
    + assert (c' = c) as ->; [|done].
      destruct pre as [|? [|??]]; simpl in Heq; by injection Heq.
Qed.

(** X9. When several lines of the device's answer start with
    ["<count> packets transmitted"], [run_ping] reports the loss and the
    packet counts that [parse_rate] extracts from the last of them. *)
Theorem last_summary_line_is_reported w params size df_bit pre line post :
  split newline (transport_output w params size df_bit) =
  pre ++ line :: post →
  startswith line (str (param_count params) +:+ " packets transmitted")
  = true →
  Forall (λ l,
    startswith l (str (param_count params) +:+ " packets transmitted")
    = false) post →
  packet_loss (run_ping w params size df_bit).1 =
    Some (parse_summary_line line).1.1 ∧
  packets_rx (run_ping w params size df_bit).1 =
    Some (parse_summary_line line).1.2 ∧
  packets_tx (run_ping w params size df_bit).1 =
    Some (parse_summary_line line).2.
Proof.
  unfold transport_output, run_ping, scan_lines. intros Hlines Hline Hpost.
  destruct (conn_get _ _) as [ping_results w']. simpl in Hlines.
  pose proof (scan_last_summary (param_count params) pre line post
                (None, None) Hline Hpost) as Hscan.
  rewrite <- Hlines in Hscan.
  destruct (foldl _ _ _) as [rtt_info rate_info]. simpl in Hscan.
  subst rate_info. simpl.
  by destruct (parse_summary_line line) as [[pkt_loss rx] tx].
Qed.

(** X10. The result of [run_ping] has no [rtt] key when no line of the
    device's answer starts with round-trip, and otherwise holds what
    [parse_rtt] reads from the last such line. *)
Theorem rtt_follows_round_trip_line w params size df_bit :
  (Forall (λ l, startswith l "round-trip" = false)
     (split newline (transport_output w params size df_bit)) →
   rtt (run_ping w params size df_bit).1 = None) ∧
  (∀ pre line post,
     split newline (transport_output w params size df_bit) =
     pre ++ line :: post →
     startswith line "round-trip" = true →
     Forall (λ l, startswith l "round-trip" = false) post →
     rtt (run_ping w params size df_bit).1 = Some (parse_rtt line)).
Proof.
  unfold transport_output, run_ping, scan_lines.
  destruct (conn_get _ _) as [ping_results w']. simpl. split.
  - intros Hlines.
    pose proof (scan_no_rtt (param_count params) _ (None, None) Hlines)
      as Hscan.
    destruct (foldl _ _ _) as [rtt_info rate_info]. simpl in Hscan.
    subst rtt_info. simpl. by destruct (parse_rate rate_info) as [[??]?].
  - intros pre line post Hlines Hline Hpost.
    pose proof (scan_last_rtt (param_count params) pre line post
                  (None, None) Hline Hpost) as Hscan.
    rewrite <- Hlines in Hscan.
    destruct (foldl _ _ _) as [rtt_info rate_info]. simpl in Hscan.
    subst rtt_info.
    assert (truthy (Some line) = true) as ->
      by (destruct line; [discriminate Hline | done]).
    simpl. by destruct (parse_rate rate_info) as [[??]?].
Qed.

End Properties.

(** * The claims on the scripted device *)

(** Replaces a closed term by its value. *)
Ltac evaluate t :=
  let v := eval vm_compute in t in
  let H := fresh in
  assert (t = v) as H by (vm_compute; reflexivity);
  rewrite H; clear H.

Lemma baseline_loss_fails_fast_witness :
  ∃ c,
    head (calls_of (main (E := scripted) params_default [reply_lost])) =
    Some c ∧
    loss_of (call_results c) = 100 ∧
    ∃ kw,
      outcome_of (main (E := scripted) params_default [reply_lost]) =
      exit_json kw ∧
      kw !! "failed" = Some (VBool true) ∧
      kw !! "inet_mtu" = Some (VInt 0) ∧
      kw !! "msg" =
        Some (VStr ("Basic connectivity to " +:+ param_dest params_default +:+
                    " failed.")) ∧
      calls_of (main (E := scripted) params_default [reply_lost]) = [c] ∧
      call_size c = "40" ∧ call_df_bit c = false.
Proof.
  assert (∃ c,
    head (calls_of (main (E := scripted) params_default [reply_lost])) =
    Some c ∧ loss_of (call_results c) = 100) as (c & Hhead & Hloss).
  { eexists. split; vm_compute; reflexivity. }
  exists c. split; [exact Hhead|]. split; [exact Hloss|].
  exact (baseline_loss_fails_fast (E := scripted) params_default
           [reply_lost] c Hhead Hloss).
Defined.

Lemma configuration_checked_before_probing_witness :
  (is_configuration_error
     (outcome_of (main (E := scripted) params_range_300 [reply_ok])) ∧
   calls_of (main (E := scripted) params_range_300 [reply_ok]) = [] ∧
   (main (E := scripted) params_range_300 [reply_ok]).2 = [reply_ok]) ∧
  ¬ is_configuration_error
      (outcome_of (main (E := scripted) params_default [reply_ok; reply_ok])).
Proof.
  split.
  - apply (configuration_checked_before_probing (E := scripted)
             params_range_300 [reply_ok]).
    right. right. simpl. intros Hin.
    repeat (apply elem_of_cons in Hin as [Hin|Hin]; [discriminate Hin|]).
    by apply elem_of_nil in Hin.
  - apply (configuration_checked_before_probing (E := scripted)
             params_default [reply_ok; reply_ok]).
    + simpl. lia.
    + simpl. do 9 apply list_elem_of_further. apply list_elem_of_here.
Defined.

Lemma all_search_probes_lost_witness :
  ∃ c0,
    head (calls_of (main (E := scripted) params_200 script_all_lost)) =
    Some c0 ∧
    succeeded c0 ∧
    Forall (λ c, loss_of (call_results c) = 100)
      (search_calls (main (E := scripted) params_200 script_all_lost)) ∧
    ∃ kw,
      outcome_of (main (E := scripted) params_200 script_all_lost) =
      fail_json kw ∧
      kw !! "failed" = Some (VBool true) ∧
      kw !! "inet_mtu" = Some (VInt 0) ∧
      kw !! "msg" =
        Some (VStr
          ("The MTU of the path to " +:+ param_dest params_200 +:+
           " is less than the minimum tested size(" +:+
           str (Z.max 68
                  (param_max_size params_200 - param_max_range params_200 + 1))
           +:+ "). Try decreasing max_size(" +:+
           str (param_max_size params_200) +:+
           ") or increasing max_range(" +:+
           str (param_max_range params_200) +:+ ").")).
Proof.
  assert (∃ c0,
    head (calls_of (main (E := scripted) params_200 script_all_lost)) =
    Some c0 ∧ succeeded c0) as (c0 & Hhead & Hok).
  { eexists. split; vm_compute; reflexivity. }
  assert (Forall (λ c, loss_of (call_results c) = 100)
    (search_calls (main (E := scripted) params_200 script_all_lost)))
    as Hlost.
  { evaluate (search_calls (main (E := scripted) params_200 script_all_lost)).
    repeat constructor. }
  exists c0. split; [exact Hhead|]. split; [exact Hok|].
  split; [exact Hlost|].
  exact (all_search_probes_lost (E := scripted) params_200 script_all_lost
           c0 Hhead Hok Hlost).
Defined.

Lemma all_probes_succeed_witness :
  ∃ c0,
    68 ≤ param_max_size params_default ≤ 65496 ∧
    0 ≤ 9 ∧ param_max_range params_default = 2 ^ 9 ∧
    head (calls_of (main (E := scripted) params_default [reply_ok; reply_ok]))
    = Some c0 ∧
    Forall succeeded
      (calls_of (main (E := scripted) params_default [reply_ok; reply_ok])) ∧
    ∃ c1 kw,
      calls_of (main (E := scripted) params_default [reply_ok; reply_ok]) =
      [c0; c1] ∧
      probed_at c1 (param_max_size params_default) ∧ call_df_bit c1 = true ∧
      outcome_of (main (E := scripted) params_default [reply_ok; reply_ok]) =
      exit_json kw ∧
      kw !! "failed" = Some (VBool false) ∧
      kw !! "inet_mtu" = Some (VInt (param_max_size params_default)).
Proof.
  assert (68 ≤ param_max_size params_default ≤ 65496) as Hsize
    by (simpl; lia).
  assert (0 ≤ 9) as Hk by lia.
  assert (param_max_range params_default = 2 ^ 9) as Hrange by reflexivity.
  assert (∃ c0,
    head (calls_of (main (E := scripted) params_default [reply_ok; reply_ok]))
    = Some c0) as [c0 Hhead].
  { eexists. vm_compute. reflexivity. }
  assert (Forall succeeded
    (calls_of (main (E := scripted) params_default [reply_ok; reply_ok])))
    as Hall.
  { evaluate (calls_of (main (E := scripted) params_default
                          [reply_ok; reply_ok])).
    repeat constructor. }
  exists c0.
  split_and!; [apply Hsize.. | exact Hk | exact Hrange | exact Hhead
              | exact Hall |].
  exact (all_probes_succeed (E := scripted) params_default
           [reply_ok; reply_ok] 9 c0 Hsize Hk Hrange Hhead Hall).
Defined.

Lemma probe_calls_bounded_witness :
  68 ≤ param_max_size params_default ≤ 65496 ∧
  1 ≤ 9 ≤ 16 ∧ param_max_range params_default = 2 ^ 9 ∧
  ∃ r,
    main (E := scripted) params_default script_all_lost = r ∧
    Z.of_nat (length (calls_of r)) ≤
    Z.log2_up (param_max_range params_default) + 2.
Proof.
  assert (68 ≤ param_max_size params_default ≤ 65496) as Hsize
    by (simpl; lia).
  assert (1 ≤ 9 ≤ 16) as Hk by lia.
  assert (param_max_range params_default = 2 ^ 9) as Hrange by reflexivity.
  split_and!; [apply Hsize.. | apply Hk | apply Hk | exact Hrange |].
  exact (proj1 (probe_calls_bounded (E := scripted) params_default
                  script_all_lost 9 Hsize Hk Hrange)).
Defined.

Lemma no_summary_line_is_total_loss_witness :
  Forall (λ line,
    startswith line (str (param_count params_default) +:+
                     " packets transmitted") = false)
    (split newline
       (transport_output (E := scripted) [reply_garbled] params_default
          "1572" true)) ∧
  packet_loss
    (run_ping (E := scripted) [reply_garbled] params_default "1572" true).1 =
  Some 100 ∧
  ¬ loss_of
      (run_ping (E := scripted) [reply_garbled] params_default "1572" true).1
    < 100.
Proof.
  assert (Forall (λ line,
    startswith line (str (param_count params_default) +:+
                     " packets transmitted") = false)
    (split newline
       (transport_output (E := scripted) [reply_garbled] params_default
          "1572" true))) as Hlines.
  { evaluate (split newline
       (transport_output (E := scripted) [reply_garbled] params_default
          "1572" true)).
    repeat constructor. }
  split; [exact Hlines|].
  exact (no_summary_line_is_total_loss (E := scripted) [reply_garbled]
           params_default "1572" true Hlines).
Defined.

Lemma inet_mtu_is_last_success_witness :
  (∃ c,
     monotone_in_size 196
       (search_calls (main (E := scripted) params_200 script_mtu_196)) ∧
     c ∈ search_calls (main (E := scripted) params_200 script_mtu_196) ∧
     succeeded c ∧ probed_at c 168 ∧
     ∃ m,
       kwargs_of
         (outcome_of (main (E := scripted) params_200 script_mtu_196))
         !! "inet_mtu" = Some (VInt m) ∧
       168 ≤ m) ∧
  (∃ c,
     68 ≤ param_max_size params_default - param_max_range params_default + 1 ∧
     c ∈ search_calls
           (main (E := scripted) params_default script_two_confirmed) ∧
     succeeded c ∧ probed_at c 1344 ∧
     ∃ m,
       kwargs_of
         (outcome_of
            (main (E := scripted) params_default script_two_confirmed))
         !! "inet_mtu" = Some (VInt m) ∧
       1344 ≤ m) ∧
  (valid_params params_default ∧
   Forall (λ c, ¬ succeeded c)
     (search_calls (main (E := scripted) params_default script_all_lost)) ∧
   kwargs_of
     (outcome_of (main (E := scripted) params_default script_all_lost))
     !! "inet_mtu" = Some (VInt 0)).
Proof.
  split_and!.
  - assert (monotone_in_size 196
      (search_calls (main (E := scripted) params_200 script_mtu_196)))
      as Hmono.
    { evaluate
        (search_calls (main (E := scripted) params_200 script_mtu_196)).
      unfold monotone_in_size, succeeded, probed_at, loss_of.
      apply Forall_cons_2; [exists 200; split; [reflexivity | simpl; lia]|].
      apply Forall_cons_2; [exists 68; split; [reflexivity | simpl; lia]|].
      apply Forall_cons_2; [exists 196; split; [reflexivity | simpl; lia]|].
      apply Forall_cons_2; [exists 200; split; [reflexivity | simpl; lia]|].
      apply Forall_cons_2; [exists 168; split; [reflexivity | simpl; lia]|].
      apply Forall_cons_2; [exists 184; split; [reflexivity | simpl; lia]|].
      apply Forall_cons_2; [exists 192; split; [reflexivity | simpl; lia]|].
      apply Forall_cons_2; [exists 196; split; [reflexivity | simpl; lia]|].
      apply Forall_cons_2; [exists 198; split; [reflexivity | simpl; lia]|].
      apply Forall_cons_2; [exists 197; split; [reflexivity | simpl; lia]|].
      apply Forall_nil_2. }
    assert (∃ c,
      search_calls (main (E := scripted) params_200 script_mtu_196)
        !! 4%nat = Some c ∧ succeeded c ∧ probed_at c 168)
      as (c & Hc & Hok & Hat).
    { eexists. split_and!; vm_compute; reflexivity. }
    apply list_elem_of_lookup_2 in Hc.
    exists c. split_and!; [exact Hmono | exact Hc | exact Hok | exact Hat |].
    exact (proj2 (proj2 (proj2 (proj2 (proj2
             (inet_mtu_is_last_success (E := scripted) params_200
                script_mtu_196)))))
             196 c 168 Hmono Hc Hok Hat).
  - assert (68 ≤ param_max_size params_default -
                 param_max_range params_default + 1) as Hlow
      by (simpl; lia).
    assert (∃ c,
      search_calls (main (E := scripted) params_default script_two_confirmed)
        !! 1%nat = Some c ∧ succeeded c ∧ probed_at c 1344)
      as (c & Hc & Hok & Hat).
    { eexists. split_and!; vm_compute; reflexivity. }
    apply list_elem_of_lookup_2 in Hc.
    exists c. split_and!; [exact Hlow | exact Hc | exact Hok | exact Hat |].
    exact (proj1 (proj2 (proj2 (proj2 (proj2
             (inet_mtu_is_last_success (E := scripted) params_default
                script_two_confirmed)))))
             Hlow c 1344 Hc Hok Hat).
  - split; [|simpl; unfold INET_MIN_MTU_SIZE, INET_MAX_MTU_SIZE; lia].
    simpl. do 9 apply list_elem_of_further. apply list_elem_of_here.
  - evaluate (search_calls
                (main (E := scripted) params_default script_all_lost)).
    unfold succeeded, loss_of.
    repeat (apply Forall_cons_2; [simpl; lia|]). apply Forall_nil_2.
  - apply (proj1 (proj2 (inet_mtu_is_last_success (E := scripted)
                           params_default script_all_lost))).
    + split; [|simpl; unfold INET_MIN_MTU_SIZE, INET_MAX_MTU_SIZE; lia].
      simpl. do 9 apply list_elem_of_further. apply list_elem_of_here.
    + evaluate (search_calls
                  (main (E := scripted) params_default script_all_lost)).
      unfold succeeded, loss_of.
      repeat (apply Forall_cons_2; [simpl; lia|]). apply Forall_nil_2.
Defined.

(** On the scripted device, with [max_size] 200 and [max_range] 512, the
    search probe at 196 succeeds, the probe at 200 after it fails, the probe
    at 168 succeeds and every later probe fails: the run ends with
    [inet_mtu] 168, below the confirmed size 196. *)
Lemma confirmed_size_overwritten :
  (∃ c, c ∈ search_calls (main (E := scripted) params_200 script_overwrite) ∧
        succeeded c ∧ probed_at c 196) ∧
  kwargs_of (outcome_of (main (E := scripted) params_200 script_overwrite))
    !! "inet_mtu" = Some (VInt 168) ∧
  ¬ (∀ c S,
       c ∈ search_calls (main (E := scripted) params_200 script_overwrite) →
       succeeded c → probed_at c S →
       ∃ m,
         kwargs_of
           (outcome_of (main (E := scripted) params_200 script_overwrite))
           !! "inet_mtu" = Some (VInt m) ∧
         S ≤ m).
Proof.
  assert (∃ c,
    search_calls (main (E := scripted) params_200 script_overwrite) !! 2%nat =
    Some c ∧ succeeded c ∧ probed_at c 196) as (c & Hc & Hok & Hat).
  { eexists. split_and!; vm_compute; reflexivity. }
  apply list_elem_of_lookup_2 in Hc.
  assert (kwargs_of
            (outcome_of (main (E := scripted) params_200 script_overwrite))
            !! "inet_mtu" = Some (VInt 168)) as Hmtu
    by (vm_compute; reflexivity).
  split_and!; [exists c; split_and!; assumption | exact Hmtu |].
  intros Hclaim. destruct (Hclaim c 196 Hc Hok Hat) as (m & Hm & Hle).
  rewrite Hmtu in Hm. injection Hm as <-. lia.
Qed.

(** * Further properties on the scripted device *)

(** The calls of a concrete run, their losses and the sizes they probe. *)
Ltac baseline_call :=
  eexists; split; [vm_compute; reflexivity | vm_compute; discriminate].

Ltac call_at t :=
  apply Forall_cons_2;
    [exists t; split; [reflexivity | unfold loss_of; simpl; lia]|].

Lemma threshold_path_mtu_reported_witness :
  ∃ c0,
    1 ≤ param_max_range params_200 ∧
    head (calls_of (main (E := scripted) params_200 script_mtu_196)) =
    Some c0 ∧
    loss_of (call_results c0) ≠ 100 ∧
    monotone_in_size 196
      (search_calls (main (E := scripted) params_200 script_mtu_196)) ∧
    min_test_size_of params_200 ≤ 196 ∧
    ∃ kw,
      outcome_of (main (E := scripted) params_200 script_mtu_196) =
      exit_json kw ∧
      kw !! "failed" = Some (VBool false) ∧
      kw !! "inet_mtu" =
        Some (VInt (Z.min 196 (param_max_size params_200))) ∧
      kw !! "msg" = None.
Proof.
  assert (1 ≤ param_max_range params_200) as Hrange by (simpl; lia).
  assert (∃ c0,
    head (calls_of (main (E := scripted) params_200 script_mtu_196)) =
    Some c0 ∧ loss_of (call_results c0) ≠ 100) as (c0 & Hhead & Hloss)
    by baseline_call.
  assert (monotone_in_size 196
    (search_calls (main (E := scripted) params_200 script_mtu_196)))
    as Hmono.
  { evaluate (search_calls (main (E := scripted) params_200 script_mtu_196)).
    unfold monotone_in_size, succeeded, probed_at.
    call_at 200. call_at 68. call_at 196. call_at 200. call_at 168.
    call_at 184. call_at 192. call_at 196. call_at 198. call_at 197.
    apply Forall_nil_2. }
  assert (min_test_size_of params_200 ≤ 196) as HM by (vm_compute; discriminate).
  exists c0.
  split_and!; [exact Hrange | exact Hhead | exact Hloss | exact Hmono
              | exact HM |].
  exact (threshold_path_mtu_reported (E := scripted) params_200
           script_mtu_196 c0 196 Hrange Hhead Hloss Hmono HM).
Defined.

Lemma threshold_below_range_fails_witness :
  ∃ c0,
    1 ≤ param_max_range params_default ∧
    head (calls_of (main (E := scripted) params_default script_all_lost)) =
    Some c0 ∧
    loss_of (call_results c0) ≠ 100 ∧
    monotone_in_size 1000
      (search_calls (main (E := scripted) params_default script_all_lost)) ∧
    1000 < min_test_size_of params_default ∧
    ∃ kw,
      outcome_of (main (E := scripted) params_default script_all_lost) =
      fail_json kw ∧
      kw !! "failed" = Some (VBool true) ∧
      kw !! "inet_mtu" = Some (VInt 0) ∧
      kw !! "msg" =
        Some (VStr (path_mtu_msg (param_dest params_default)
                      (min_test_size_of params_default)
                      (param_max_size params_default)
                      (param_max_range params_default))).
Proof.
  assert (1 ≤ param_max_range params_default) as Hrange by (simpl; lia).
  assert (∃ c0,
    head (calls_of (main (E := scripted) params_default script_all_lost)) =
    Some c0 ∧ loss_of (call_results c0) ≠ 100) as (c0 & Hhead & Hloss)
    by baseline_call.
  assert (monotone_in_size 1000
    (search_calls (main (E := scripted) params_default script_all_lost)))
    as Hmono.
  { evaluate (search_calls
                (main (E := scripted) params_default script_all_lost)).
    unfold monotone_in_size, succeeded, probed_at.
    call_at 1600. call_at 1344. call_at 1216. call_at 1152. call_at 1120.
    call_at 1104. call_at 1096. call_at 1092. call_at 1090. call_at 1089.
    apply Forall_nil_2. }
  assert (1000 < min_test_size_of params_default) as HM
    by (vm_compute; reflexivity).
  exists c0.
  split_and!; [exact Hrange | exact Hhead | exact Hloss | exact Hmono
              | exact HM |].
  exact (threshold_below_range_fails (E := scripted) params_default
           script_all_lost c0 1000 Hrange Hhead Hloss Hmono HM).
Defined.

Lemma search_probes_at_least_min_test_size_witness :
  1 ≤ param_max_range params_200 ∧
  Forall (λ c, ∃ t, probed_at c t ∧
                    min_test_size_of params_200 ≤ t ≤
                    param_max_size params_200)
    (search_calls (main (E := scripted) params_200 script_overwrite)).
Proof.
  assert (1 ≤ param_max_range params_200) as Hrange by (simpl; lia).
  split; [exact Hrange|].
  exact (search_probes_at_least_min_test_size (E := scripted) params_200
           script_overwrite Hrange).
Defined.

Lemma all_failed_min_test_size_probed_witness :
  ∃ c0,
    1 ≤ param_max_range params_default ∧
    head (calls_of (main (E := scripted) params_default script_all_lost)) =
    Some c0 ∧
    loss_of (call_results c0) ≠ 100 ∧
    Forall (λ c, ¬ succeeded c)
      (search_calls (main (E := scripted) params_default script_all_lost)) ∧
    ∃ c,
      last (search_calls
              (main (E := scripted) params_default script_all_lost)) =
      Some c ∧
      probed_at c (min_test_size_of params_default) ∧ ¬ succeeded c.
Proof.
  assert (1 ≤ param_max_range params_default) as Hrange by (simpl; lia).
  assert (∃ c0,
    head (calls_of (main (E := scripted) params_default script_all_lost)) =
    Some c0 ∧ loss_of (call_results c0) ≠ 100) as (c0 & Hhead & Hloss)
    by baseline_call.
  assert (Forall (λ c, ¬ succeeded c)
    (search_calls (main (E := scripted) params_default script_all_lost)))
    as Hnone.
  { evaluate (search_calls
                (main (E := scripted) params_default script_all_lost)).
    unfold succeeded, loss_of.
    repeat (apply Forall_cons_2; [simpl; lia|]). apply Forall_nil_2. }
  exists c0.
  split_and!; [exact Hrange | exact Hhead | exact Hloss | exact Hnone |].
  exact (all_failed_min_test_size_probed (E := scripted) params_default
           script_all_lost c0 Hrange Hhead Hloss Hnone).
Defined.

Lemma result_contract_witness :
  valid_params params_default ∧
  ∃ failed mtu,
    kwargs_of
      (outcome_of (main (E := scripted) params_default [reply_ok; reply_ok]))
      !! "changed" = Some (VBool false) ∧
    kwargs_of
      (outcome_of (main (E := scripted) params_default [reply_ok; reply_ok]))
      !! "dest" = Some (VStr (param_dest params_default)) ∧
    kwargs_of
      (outcome_of (main (E := scripted) params_default [reply_ok; reply_ok]))
      !! "failed" = Some (VBool failed) ∧
    kwargs_of
      (outcome_of (main (E := scripted) params_default [reply_ok; reply_ok]))
      !! "inet_mtu" = Some (VInt mtu) ∧
    (failed = false ↔ mtu ≠ 0) ∧
    (mtu ≠ 0 → 68 ≤ mtu ≤ param_max_size params_default) ∧
    (failed = false ↔
     kwargs_of
       (outcome_of (main (E := scripted) params_default [reply_ok; reply_ok]))
       !! "msg" = None) ∧
    (failed = false →
     ∃ kw,
       outcome_of (main (E := scripted) params_default [reply_ok; reply_ok]) =
       exit_json kw).
Proof.
  assert (valid_params params_default) as Hvalid.
  { split; [|simpl; unfold INET_MIN_MTU_SIZE, INET_MAX_MTU_SIZE; lia].
    simpl. do 9 apply list_elem_of_further. apply list_elem_of_here. }
  split; [exact Hvalid|].
  exact (result_contract (E := scripted) params_default [reply_ok; reply_ok]
           Hvalid).
Defined.

Lemma search_probe_count_exact_witness :
  ∃ c0,
    0 ≤ 9 ∧ param_max_range params_default = 2 ^ 9 ∧
    head (calls_of (main (E := scripted) params_default script_all_lost)) =
    Some c0 ∧
    loss_of (call_results c0) ≠ 100 ∧
    Forall (λ c,
      ¬ (succeeded c ∧ probed_at c (param_max_size params_default)))
      (search_calls (main (E := scripted) params_default script_all_lost)) ∧
    Z.of_nat
      (length
         (search_calls (main (E := scripted) params_default script_all_lost)))
    = 9 + 1.
Proof.
  assert (0 ≤ 9) as Hk by lia.
  assert (param_max_range params_default = 2 ^ 9) as Hrange by reflexivity.
  assert (∃ c0,
    head (calls_of (main (E := scripted) params_default script_all_lost)) =
    Some c0 ∧ loss_of (call_results c0) ≠ 100) as (c0 & Hhead & Hloss)
    by baseline_call.
  assert (Forall (λ c,
    ¬ (succeeded c ∧ probed_at c (param_max_size params_default)))
    (search_calls (main (E := scripted) params_default script_all_lost)))
    as Hquiet.
  { evaluate (search_calls
                (main (E := scripted) params_default script_all_lost)).
    unfold succeeded, loss_of.
    repeat (apply Forall_cons_2; [simpl; intros [? _]; lia|]).
    apply Forall_nil_2. }
  exists c0.
  split_and!; [exact Hk | exact Hrange | exact Hhead | exact Hloss
              | exact Hquiet |].
  exact (search_probe_count_exact (E := scripted) params_default
           script_all_lost 9 c0 Hk Hrange Hhead Hloss Hquiet).
Defined.

Lemma first_search_probe_at_max_size_witness :
  ∃ c0,
    head (calls_of (main (E := scripted) params_200 script_overwrite)) =
    Some c0 ∧
    loss_of (call_results c0) ≠ 100 ∧
    ∃ c rest,
      search_calls (main (E := scripted) params_200 script_overwrite) =
      c :: rest ∧
      probed_at c (param_max_size params_200) ∧ call_df_bit c = true.
Proof.
  assert (∃ c0,
    head (calls_of (main (E := scripted) params_200 script_overwrite)) =
    Some c0 ∧ loss_of (call_results c0) ≠ 100) as (c0 & Hhead & Hloss)
    by baseline_call.
  exists c0. split_and!; [exact Hhead | exact Hloss |].
  exact (first_search_probe_at_max_size (E := scripted) params_200
           script_overwrite c0 Hhead Hloss).
Defined.

Lemma range_zero_single_probe_witness :
  ∃ c0,
    param_max_range params_range_0 = 0 ∧
    head (calls_of
            (main (E := scripted) params_range_0 [reply_ok; reply_lost])) =
    Some c0 ∧
    loss_of (call_results c0) ≠ 100 ∧
    ∃ c,
      search_calls
        (main (E := scripted) params_range_0 [reply_ok; reply_lost]) = [c] ∧
      probed_at c (param_max_size params_range_0) ∧
      (succeeded c →
       ∃ kw,
         outcome_of
           (main (E := scripted) params_range_0 [reply_ok; reply_lost]) =
         exit_json kw ∧
         kw !! "failed" = Some (VBool false) ∧
         kw !! "inet_mtu" = Some (VInt (param_max_size params_range_0))) ∧
      (¬ succeeded c →
       ∃ kw,
         outcome_of
           (main (E := scripted) params_range_0 [reply_ok; reply_lost]) =
         fail_json kw ∧
         kw !! "inet_mtu" = Some (VInt 0) ∧
         kw !! "msg" =
           Some (VStr
             ("The MTU of the path to " +:+ param_dest params_range_0 +:+
              " is less than the minimum tested size(" +:+
              str (param_max_size params_range_0 + 1) +:+
              "). Try decreasing max_size(" +:+
              str (param_max_size params_range_0) +:+
              ") or increasing max_range(0)."))).
Proof.
  assert (param_max_range params_range_0 = 0) as Hrange by reflexivity.
  assert (∃ c0,
    head (calls_of
            (main (E := scripted) params_range_0 [reply_ok; reply_lost])) =
    Some c0 ∧ loss_of (call_results c0) ≠ 100) as (c0 & Hhead & Hloss)
    by baseline_call.
  exists c0. split_and!; [exact Hrange | exact Hhead | exact Hloss |].
  exact (range_zero_single_probe (E := scripted) params_range_0
           [reply_ok; reply_lost] c0 Hrange Hhead Hloss).
Defined.

Lemma last_summary_line_is_reported_witness :
  split newline
    (transport_output (E := scripted) [reply_ok] params_default "1572" true) =
  ["--- 192.68.1.1 ping statistics ---"] ++
  summary_line 5 5 0 ::
  ["round-trip min/avg/max/stddev = 0.5/0.6/0.7/0.1 ms"] ∧
  startswith (summary_line 5 5 0)
    (str (param_count params_default) +:+ " packets transmitted") = true ∧
  Forall (λ l,
    startswith l (str (param_count params_default) +:+
                  " packets transmitted") = false)
    ["round-trip min/avg/max/stddev = 0.5/0.6/0.7/0.1 ms"] ∧
  packet_loss
    (run_ping (E := scripted) [reply_ok] params_default "1572" true).1 =
    Some (parse_summary_line (Env := scripted) (summary_line 5 5 0)).1.1 ∧
  packets_rx
    (run_ping (E := scripted) [reply_ok] params_default "1572" true).1 =
    Some (parse_summary_line (Env := scripted) (summary_line 5 5 0)).1.2 ∧
  packets_tx
    (run_ping (E := scripted) [reply_ok] params_default "1572" true).1 =
    Some (parse_summary_line (Env := scripted) (summary_line 5 5 0)).2.
Proof.
  assert (split newline
    (transport_output (E := scripted) [reply_ok] params_default "1572" true) =
    ["--- 192.68.1.1 ping statistics ---"] ++
    summary_line 5 5 0 ::
    ["round-trip min/avg/max/stddev = 0.5/0.6/0.7/0.1 ms"]) as Hlines
    by (vm_compute; reflexivity).
  assert (startswith (summary_line 5 5 0)
    (str (param_count params_default) +:+ " packets transmitted") = true)
    as Hline by (vm_compute; reflexivity).
  assert (Forall (λ l,
    startswith l (str (param_count params_default) +:+
                  " packets transmitted") = false)
    ["round-trip min/avg/max/stddev = 0.5/0.6/0.7/0.1 ms"]) as Hpost
    by (repeat constructor).
  split_and!; [exact Hlines | exact Hline | exact Hpost | ..];
    apply (last_summary_line_is_reported (E := scripted) [reply_ok]
             params_default "1572" true _ _ _ Hlines Hline Hpost).
Defined.

Lemma rtt_follows_round_trip_line_witness :
  split newline
    (transport_output (E := scripted) [reply_ok] params_default "1572" true) =
  ["--- 192.68.1.1 ping statistics ---"; summary_line 5 5 0] ++
  "round-trip min/avg/max/stddev = 0.5/0.6/0.7/0.1 ms" :: [] ∧
  startswith "round-trip min/avg/max/stddev = 0.5/0.6/0.7/0.1 ms"
    "round-trip" = true ∧
  rtt (run_ping (E := scripted) [reply_ok] params_default "1572" true).1 =
  Some (parse_rtt (Env := scripted)
          "round-trip min/avg/max/stddev = 0.5/0.6/0.7/0.1 ms").
Proof.
  assert (split newline
    (transport_output (E := scripted) [reply_ok] params_default "1572" true) =
    ["--- 192.68.1.1 ping statistics ---"; summary_line 5 5 0] ++
    "round-trip min/avg/max/stddev = 0.5/0.6/0.7/0.1 ms" :: []) as Hlines
    by (vm_compute; reflexivity).
  assert (startswith "round-trip min/avg/max/stddev = 0.5/0.6/0.7/0.1 ms"
    "round-trip" = true) as Hline by reflexivity.
  split_and!; [exact Hlines | exact Hline |].
  exact (proj2 (rtt_follows_round_trip_line (E := scripted) [reply_ok]
                  params_default "1572" true)
           _ _ _ Hlines Hline (Forall_nil_2 _)).
Defined.
